(** * Vivpro song catalogue: reload decision, normalisation, ingestion, queries

    A shallow embedding of [api.py]: the attribute-map normaliser
    ([normalize_json]), the reload decision ([should_reload_data]), the
    ingestion ([load_data]) and the three query operations
    ([get_all_songs], [search_by_title], [rate_song]), followed by the
    properties of the specification stated over them.

    Python dictionaries that the code iterates ([json_data], the song being
    built) are insertion-ordered association lists; the inner maps of the
    snapshot, which the code only measures and looks up, are [gmap]s; the
    [songs] table is a [gmap] from the [idx] primary key to the row.
    Floating-point numbers (ratings, modification times) are the rationals
    they denote. *)

From Stdlib Require Import QArith.
From stdpp Require Import gmap strings list fin_maps sorting pretty.

Local Open Scope string_scope.
Local Open Scope Z_scope.

(** ** Python values *)

(** What [json.load] can put in a cell of the snapshot. Lists and objects are
    kept as one opaque case: the code never looks inside them, it only hashes
    them (which raises) or binds them to a statement (which raises). *)
Inductive pyval :=
| PNone
| PBool (b : bool)
| PInt (z : Z)
| PFloat (q : Q)
| PStr (s : string)
| PContainer.

(** ** Insertion-ordered dictionaries *)

Module PyDict.

Definition t (V : Type) := list (string * V).

(** [d.get(k)] without default: the first binding of [k]. *)
Fixpoint lookup {V} (d : t V) (k : string) : option V :=
  match d with
  | [] => None
  | (k', v) :: d' => if decide (k' = k) then Some v else lookup d' k
  end.

(** [k in d] *)
Definition mem {V} (d : t V) (k : string) : bool :=
  bool_decide (is_Some (lookup d k)).

(** [d[k] = v]: an existing key keeps its place, a new one goes last. *)
Fixpoint set {V} (d : t V) (k : string) (v : V) : t V :=
  match d with
  | [] => [(k, v)]
  | (k', v') :: d' =>
      if decide (k' = k) then (k, v) :: d' else (k', v') :: set d' k v
  end.

Definition keys {V} (d : t V) : list string := d.*1.

(** The invariant of every Python dictionary: no key occurs twice. *)
Definition wf {V} (d : t V) : Prop := NoDup (keys d).

End PyDict.

(** [song.get(k)]: a missing key reads as [None]. *)
Definition py_get (d : PyDict.t pyval) (k : string) : pyval :=
  default PNone (PyDict.lookup d k).

(** ** The snapshot and its normalisation *)

(** [Dict[str, Dict[str, Any]]]: attribute name to (stringified position to
    value), in the order of the file. *)
Definition snapshot := PyDict.t (gmap string pyval).

(** A normalised record. *)
Definition song := PyDict.t pyval.

(** [str(i)] for a position of [range]. *)
Definition str (i : nat) : string := pretty i.

(** [values.get(str(i))] *)
Definition values_get (values : gmap string pyval) (i : nat) : pyval :=
  default PNone (values !! str i).

(** The inner loop: [for attr, values in json_data.items(): song[attr] = ...] *)
Definition fill_song (json_data : snapshot) (i : nat) (s : song) : song :=
  foldl (fun acc '(attr, values) => PyDict.set acc attr (values_get values i))
        s json_data.

(** One iteration of the outer loop. *)
Definition build_song (json_data : snapshot) (i : nat) : song :=
  let s := fill_song json_data i [("index", PInt (Z.of_nat i))] in
  if PyDict.mem s "star_rating" then s
  else PyDict.set s "star_rating" (PFloat 0).

(** [song_count = len(json_data[first_attr])] *)
Definition song_count (json_data : snapshot) : nat :=
  match json_data with
  | [] => 0%nat
  | (_, values) :: _ => size values
  end.

(** [normalize_json]; the argument is [None] for an absent snapshot. *)
Definition normalize_json (json_data : option snapshot) : list song :=
  match json_data with
  | None => []
  | Some [] => []
  | Some d => build_song d <$> seq 0 (song_count d)
  end.

(** ** Exceptions *)

Inductive exn :=
| FileNotFoundError
| JSONDecodeError
| TypeError                      (* unhashable dictionary key *)
| OverflowError                  (* Python int outside SQLite's INTEGER *)
| BindingError                   (* sqlite3: parameter of unsupported type *)
| IntegrityError                 (* datatype mismatch, UNIQUE constraint *)
| OperationalError               (* any other failure of the engine *)
| HTTPException (status_code : Z).

Inductive result (A : Type) :=
| Ok (a : A)
| Raise (e : exn).
Arguments Ok {A} a.
Arguments Raise {A} e.

#[global] Instance result_ret : MRet result := fun _ a => Ok a.
#[global] Instance result_bind : MBind result := fun _ _ k m =>
  match m with
  | Ok a => k a
  | Raise e => Raise e
  end.

(** [mapM] for [result]: the first failure, in list order, is the one raised. *)
Fixpoint traverse {A B} (f : A → result B) (l : list A) : result (list B) :=
  match l with
  | [] => Ok []
  | a :: l' => b ← f a; bs ← traverse f l'; mret (b :: bs)
  end.

(** ** SQLite cells and the songs table *)

Inductive sqlval :=
| SNull
| SInt (z : Z)
| SReal (q : Q)
| SText (s : string).

Inductive affinity := INTEGER | REAL | TEXT.

(** The sixteen audio-analysis columns of [CREATE TABLE songs], in the order
    of the [INSERT] statement, with their declared types. *)
Definition analysis_columns : list (string * affinity) :=
  [("danceability", REAL); ("energy", REAL); ("key", INTEGER);
   ("loudness", REAL); ("mode", INTEGER); ("acousticness", REAL);
   ("instrumentalness", REAL); ("liveness", REAL); ("valence", REAL);
   ("tempo", REAL); ("duration_ms", INTEGER); ("time_signature", INTEGER);
   ("num_bars", INTEGER); ("num_sections", INTEGER);
   ("num_segments", INTEGER); ("class_label", INTEGER)].

(** A row, without its key [idx]. [id] and [title] are [TEXT] columns, so
    they hold text or [NULL]; [star_rating] is the [REAL] the code writes.
    The table itself is a [gmap Z row] from [idx] to the row; it exists,
    [init_db] having run at startup. *)
Record row := {
  r_id : option string;
  r_title : option string;
  r_analysis : list sqlval;
  r_star_rating : Q;
}.

(** The coercions of the storage engine that the source relies on without
    containing them. Everything below holds for any choice of them. *)
Class Engine := {
  (** text form of a [REAL] stored in a [TEXT] column *)
  real_to_text : Q → string;
  (** lossless conversion of a [REAL] or [TEXT] cell to an [INTEGER PRIMARY
      KEY]; [None] is a datatype mismatch *)
  coerce_rowid : sqlval → option Z;
  (** key chosen for a [NULL] primary key once the largest key in use is
      [2^63-1]; [None] when the engine gives up. The engine picks it at
      random: an [Engine] holds the picks of one run, and two runs need not
      have the same. Within a run no two picks see the same keys, since a
      reload only adds keys after its [DELETE]. *)
  unused_rowid : gset Z → option Z;
  (** coercion of a cell by an [INTEGER] or [REAL] column *)
  numeric_affinity : affinity → sqlval → sqlval;
}.

#[global] Instance Qlt_dec : RelDecision Qlt.
Proof. intros x y. unfold Qlt. apply _. Defined.
#[global] Instance Qle_dec : RelDecision Qle.
Proof. intros x y. unfold Qle. apply _. Defined.

Definition idx_le (a b : Z * row) : Prop := a.1 ≤ b.1.
#[global] Instance idx_le_dec : RelDecision idx_le.
Proof. intros a b. unfold idx_le. apply _. Defined.

(** A scan of the table: rows come out by ascending [idx], which is the
    rowid. *)
Definition scan (t : gmap Z row) : list (Z * row) :=
  merge_sort idx_le (map_to_list t).

(** ** Connections *)

(** A connection sees its own uncommitted changes in [pending]; everyone
    else sees [committed]. The sqlite3 module opens a transaction before the
    first [DELETE], [INSERT] or [UPDATE] and ends it at [commit]; a
    connection that goes away without [commit] leaves [committed] as it
    was. *)
Record conn := {
  committed : gmap Z row;
  pending : gmap Z row;
}.

Definition db (A : Type) : Type := conn → result A * conn.

#[global] Instance db_ret : MRet db := fun _ a c => (Ok a, c).
#[global] Instance db_bind : MBind db := fun _ _ k m c =>
  match m c with
  | (Ok a, c') => k a c'
  | (Raise e, c') => (Raise e, c')
  end.

Definition raise {A} (e : exn) : db A := fun c => (Raise e, c).

Definition lift {A} (r : result A) : db A := fun c => (r, c).

(** [try: m except: h] *)
Definition try_except {A} (m : db A) (h : db A) : db A := fun c =>
  match m c with
  | (Ok a, c') => (Ok a, c')
  | (Raise _, c') => h c'
  end.

Definition commit : db unit := fun c =>
  (Ok (), {| committed := pending c; pending := pending c |}).

Definition close : db unit := fun c =>
  (Ok (), {| committed := committed c; pending := committed c |}).

(** An operation of the API: from the table as stored to its outcome and
    the table as stored afterwards. It runs on a connection of its own
    ([sqlite3.connect(config.DATABASE_URL)]). *)
Definition with_connection {A} (m : db A) (t : gmap Z row)
  : result A * gmap Z row :=
  let '(r, c) := m {| committed := t; pending := t |} in (r, committed c).

(** [for x in l: body x] *)
Fixpoint for_each {A} (l : list A) (body : A → db unit) : db unit :=
  match l with
  | [] => mret ()
  | x :: l' => body x ;; for_each l' body
  end.

(** ** Statements *)

Section Statements.
Context `{Engine}.

(** How the sqlite3 module binds a Python value to a [?]. *)
Definition bind_param (v : pyval) : result sqlval :=
  match v with
  | PNone => Ok SNull
  | PBool b => Ok (SInt (if b then 1 else 0))
  | PInt z =>
      if decide (- 2 ^ 63 ≤ z < 2 ^ 63) then Ok (SInt z)
      else Raise OverflowError
  | PFloat q => Ok (SReal q)
  | PStr s => Ok (SText s)
  | PContainer => Raise BindingError
  end.

(** What a [TEXT] column keeps of a cell. *)
Definition text_affinity (v : sqlval) : option string :=
  match v with
  | SNull => None
  | SInt z => Some (pretty z)
  | SReal q => Some (real_to_text q)
  | SText s => Some s
  end.

(** The key given to a row inserted with [idx = NULL]: one more than the
    largest in use, [1] in an empty table. *)
Definition next_rowid (t : gmap Z row) : option Z :=
  match last (scan t) with
  | None => Some 1
  | Some (m, _) =>
      if decide (m = 2 ^ 63 - 1) then unused_rowid (dom t) else Some (m + 1)
  end.

(** [idx INTEGER PRIMARY KEY] *)
Definition rowid_of_cell (t : gmap Z row) (v : sqlval) : result Z :=
  match v with
  | SNull =>
      match next_rowid t with
      | Some k => Ok k
      | None => Raise OperationalError
      end
  | SInt z => Ok z
  | _ =>
      match coerce_rowid v with
      | Some k => Ok k
      | None => Raise IntegrityError
      end
  end.

(** The cells of a new row other than its key, bound in the order of the
    statement's parameters. *)
Definition build_row (id title : pyval) (analysis : list pyval)
    (star_rating : Q) : result row :=
  c_id ← bind_param id;
  c_title ← bind_param title;
  c_analysis ← traverse bind_param analysis;
  mret {| r_id := text_affinity c_id;
          r_title := text_affinity c_title;
          r_analysis :=
            zip_with numeric_affinity analysis_columns.*2 c_analysis;
          r_star_rating := star_rating |}.

Definition insert_row (t : gmap Z row) (idx id title : pyval)
    (analysis : list pyval) (star_rating : Q) : result (gmap Z row) :=
  c_idx ← bind_param idx;
  r ← build_row id title analysis star_rating;
  k ← rowid_of_cell t c_idx;
  if decide (is_Some (t !! k)) then Raise IntegrityError
  else Ok (<[k := r]> t).

(** [INSERT INTO songs (idx, id, title, ..., star_rating) VALUES (?, ...)];
    a statement that fails changes nothing. *)
Definition execute_insert (idx id title : pyval) (analysis : list pyval)
    (star_rating : Q) : db unit := fun c =>
  match insert_row (pending c) idx id title analysis star_rating with
  | Ok t' => (Ok (), {| committed := committed c; pending := t' |})
  | Raise e => (Raise e, c)
  end.

End Statements.

(** [DELETE FROM songs] *)
Definition execute_delete : db unit := fun c =>
  (Ok (), {| committed := committed c; pending := ∅ |}).

(** [SELECT id, star_rating FROM songs WHERE star_rating > 0] *)
Definition select_rated (t : gmap Z row) : list (option string * Q) :=
  (fun kr : Z * row => (r_id kr.2, r_star_rating kr.2)) <$>
  filter (fun kr : Z * row => (0 < r_star_rating kr.2)%Q) (scan t).

Definition execute_select_rated : db (list (option string * Q)) := fun c =>
  (Ok (select_rated (pending c)), c).

Definition has_id (song_id : string) (r : row) : Prop :=
  r_id r = Some song_id.
#[global] Instance has_id_dec song_id r : Decision (has_id song_id r).
Proof. unfold has_id. apply _. Defined.

Definition set_rating (rating : Q) (r : row) : row :=
  {| r_id := r_id r; r_title := r_title r; r_analysis := r_analysis r;
     r_star_rating := rating |}.

(** [UPDATE songs SET star_rating = ? WHERE id = ?]; the result is
    [cursor.rowcount]. *)
Definition execute_update_rating (rating : Q) (song_id : string)
  : db nat := fun c =>
  (Ok (size (filter (fun kr : Z * row => has_id song_id kr.2) (pending c))),
   {| committed := committed c;
      pending := (fun r => if decide (has_id song_id r)
                           then set_rating rating r else r) <$> pending c |}).

(** [SELECT * FROM songs ORDER BY idx LIMIT {limit} OFFSET {offset}]. The
    two numbers are pasted into the text of the statement: one outside the
    64-bit integers is read as a [REAL], which [LIMIT] and [OFFSET] refuse
    (datatype mismatch). A negative [LIMIT] is no limit, a negative
    [OFFSET] is none. *)
Definition execute_select_page (limit offset : Z) : db (list (Z * row)) :=
  fun c =>
  if decide ((- 2 ^ 63 ≤ limit < 2 ^ 63) ∧ (- 2 ^ 63 ≤ offset < 2 ^ 63))
  then
    let rows := drop (Z.to_nat offset) (scan (pending c)) in
    (Ok (if decide (limit < 0) then rows else take (Z.to_nat limit) rows), c)
  else (Raise IntegrityError, c).

(** [SELECT * FROM songs WHERE title = ?] *)
Definition execute_select_title (title : string) : db (list (Z * row)) :=
  fun c =>
  (Ok (filter (fun kr : Z * row => r_title kr.2 = Some title)
              (scan (pending c))), c).

(** ** Rows as the API returns them *)

Definition text_cell (o : option string) : sqlval :=
  match o with
  | Some s => SText s
  | None => SNull
  end.

(** [dict(row)] for a row of [SELECT *] *)
Definition dict_of_row (kr : Z * row) : PyDict.t sqlval :=
  ([("idx", SInt kr.1); ("id", text_cell (r_id kr.2));
    ("title", text_cell (r_title kr.2))]
   ++ zip analysis_columns.*1 (r_analysis kr.2)
   ++ [("star_rating", SReal (r_star_rating kr.2))])%list.

Definition pop {V} (d : PyDict.t V) (k : string) : PyDict.t V :=
  filter (fun kv : string * V => kv.1 ≠ k) d.

(** [song = dict(row); song['index'] = song.pop('idx')] *)
Definition song_of_row (kr : Z * row) : PyDict.t sqlval :=
  let d := dict_of_row kr in
  PyDict.set (pop d "idx") "index" (default SNull (PyDict.lookup d "idx")).

(** ** The operations *)

Definition api (A : Type) : Type := gmap Z row → result A * gmap Z row.

(** [GET /songs] *)
Definition get_all_songs (page limit : Z) : api (list (PyDict.t sqlval)) :=
  let offset := (page - 1) * limit in
  with_connection (
    rows ← execute_select_page limit offset;
    close ;;
    mret (song_of_row <$> rows)).

(** [GET /songs/search] *)
Definition search_by_title (title : string)
  : api (list (PyDict.t sqlval)) :=
  with_connection (
    rows ← execute_select_title title;
    close ;;
    mret (song_of_row <$> rows)).

(** [PUT /songs/{song_id}/rating]; the result is the [song_id] and [rating]
    of the reply. *)
Definition rate_song (song_id : string) (rating : Q) : api (string * Q) :=
  if decide (0 <= rating ∧ rating <= 5)%Q then
    with_connection (
      rowcount ← execute_update_rating rating song_id;
      if decide (rowcount = 0%nat) then
        close ;; raise (HTTPException 404)
      else
        commit ;; close ;; mret (song_id, rating))
  else fun t => (Raise (HTTPException 400), t).

(** ** Ingestion *)

(** What [open(file_path)] followed by [json.load] finds. [Parsed None] is a
    file holding [null]. *)
Inductive json_file :=
| Missing
| Malformed
| Parsed (json_data : option snapshot).

(** [{row[0]: row[1] for row in cursor.fetchall()}] *)
Definition dict_of_rated (rows : list (option string * Q))
  : gmap (option string) Q :=
  foldl (fun m '(k, v) => <[k := v]> m) ∅ rows.

(** [existing_ratings.get(key, 0.0)]. The keys of [existing_ratings] are
    strings or [None]; a number or a boolean is hashable and equal to none of
    them, a list or an object is not hashable. *)
Definition overlay_get (existing_ratings : gmap (option string) Q)
    (key : pyval) : result Q :=
  match key with
  | PNone => Ok (default 0%Q (existing_ratings !! None))
  | PStr s => Ok (default 0%Q (existing_ratings !! Some s))
  | PContainer => Raise TypeError
  | _ => Ok 0%Q
  end.

(** [existing_ratings.get(song.get('id'), 0.0) if preserve_ratings else 0.0] *)
Definition preserved_rating (preserve_ratings : bool)
    (existing_ratings : gmap (option string) Q) (s : song) : result Q :=
  if preserve_ratings then overlay_get existing_ratings (py_get s "id")
  else Ok 0%Q.

(** The values bound to the sixteen analysis columns. *)
Definition analysis_of (s : song) : list pyval :=
  (fun col : string * affinity => py_get s col.1) <$> analysis_columns.

Section Ingestion.
Context `{Engine}.

(** The row written for a song, but for its key. *)
Definition row_of_song (s : song) (star_rating : Q) : result row :=
  build_row (py_get s "id") (py_get s "title") (analysis_of s) star_rating.

(** The body of [for song in songs]. *)
Definition insert_song (preserve_ratings : bool)
    (existing_ratings : gmap (option string) Q) (s : song) : db unit :=
  rating ← lift (preserved_rating preserve_ratings existing_ratings s);
  execute_insert (py_get s "index") (py_get s "id") (py_get s "title")
                 (analysis_of s) rating.

Definition load_data (fs : string → json_file) (file_path : string)
    (preserve_ratings : bool) : api nat := fun t =>
  match fs file_path with
  | Missing => (Raise FileNotFoundError, t)
  | Malformed => (Raise JSONDecodeError, t)
  | Parsed json_data =>
      let songs := normalize_json json_data in
      with_connection (
        existing_ratings ←
          (if preserve_ratings then
             try_except
               (rows ← execute_select_rated; mret (dict_of_rated rows))
               (mret ∅)
           else mret ∅);
        execute_delete ;;
        for_each songs (insert_song preserve_ratings existing_ratings) ;;
        commit ;;
        close ;;
        mret (length songs)) t
  end.

End Ingestion.

(** ** The reload decision *)

Record Config := {
  DATABASE_URL : string;
  DEFAULT_JSON_FILE : string;
}.

(** What the probes of [should_reload_data] see: whether a path exists, its
    modification time, and the [songs] table of the database at a path
    ([None] when [SELECT COUNT( * ) FROM songs] raises there). *)
Record world := {
  path_exists : string → bool;
  getmtime : string → Q;
  songs_at : string → option (gmap Z row);
}.

(** [conn.execute('SELECT COUNT( * ) FROM songs').fetchone()[0]] *)
Definition count_songs (w : world) (db_file : string) : result Z :=
  match songs_at w db_file with
  | Some t => Ok (Z.of_nat (size t))
  | None => Raise OperationalError
  end.

Definition should_reload_data (config : Config) (w : world)
    (json_file db_file : option string) : bool :=
  let json_file := default (DEFAULT_JSON_FILE config) json_file in
  let db_file := default (DATABASE_URL config) db_file in
  if negb (path_exists w json_file) then false
  else if negb (path_exists w db_file) then true
  else
    match count_songs w db_file with
    | Ok count =>
        if decide (count = 0) then true
        else bool_decide (getmtime w db_file < getmtime w json_file)%Q
    | Raise _ => true
    end.

(** ** Initialisation, manual reload and startup *)

(** [CREATE TABLE IF NOT EXISTS songs (...)]: the table of this model
    exists, so the statement does nothing. *)
Definition execute_create_table : db unit := fun c => (Ok (), c).

Definition init_db : api unit :=
  with_connection (execute_create_table ;; commit ;; close).

(** [SELECT COUNT( * ) FROM songs] on the application's own database. *)
Definition execute_count : db Z := fun c =>
  (Ok (Z.of_nat (size (pending c))), c).

Section Startup.
Context `{Engine}.

(** [POST /load]: the result is the [message] of the reply. Every exception
    of [load_data] becomes a reply with status 500. *)
Definition load_json_data (config : Config) (fs : string → json_file)
    (file_path : option string) : api string := fun t =>
  let file_path := default (DEFAULT_JSON_FILE config) file_path in
  match load_data fs file_path false t with
  | (Ok songs_loaded, t') =>
      (Ok ("Loaded " +:+ pretty songs_loaded +:+ " songs"), t')
  | (Raise _, t') => (Raise (HTTPException 500), t')
  end.

(** The startup half of [lifespan], up to its [yield]: [w] is what the
    probes of [should_reload_data] see once [init_db] has run. What is
    printed is left out. *)
Definition lifespan (config : Config) (w : world)
    (fs : string → json_file) : api unit := fun t =>
  match init_db t with
  | (Raise e, t0) => (Raise e, t0)
  | (Ok _, t0) =>
      if should_reload_data config w None None then
        match load_data fs (DEFAULT_JSON_FILE config) true t0 with
        | (Ok _, t') => (Ok (), t')
        | (Raise _, t') => (Ok (), t')
        end
      else
        with_connection
          (try_except (execute_count ;; close ;; mret ()) (mret ())) t0
  end.

End Startup.

(** ** Derived notions used in the statements *)

(** The table after [UPDATE songs SET star_rating = rating WHERE id =
    song_id]. *)
Definition rated (rating : Q) (song_id : string) (t : gmap Z row)
  : gmap Z row :=
  (fun r => if decide (has_id song_id r) then set_rating rating r else r)
    <$> t.

(** Strictly ascending [idx]. *)
Definition idx_lt (a b : Z * row) : Prop := a.1 < b.1.

(** The ratings that [load_data] carries over from the table it finds. *)
Definition overlay (preserve_ratings : bool) (t : gmap Z row)
  : gmap (option string) Q :=
  if preserve_ratings then dict_of_rated (select_rated t) else ∅.

(** A value that a [TEXT] column keeps as it is: a string or [None]. *)
Definition text_or_none (v : pyval) : Prop :=
  match v with
  | PStr _ | PNone => True
  | _ => False
  end.

(** The engine [E] with other random picks of keys. *)
Definition with_unused_rowid (E : Engine) (pick : gset Z → option Z)
  : Engine :=
  {| real_to_text := @real_to_text E;
     coerce_rowid := @coerce_rowid E;
     unused_rowid := pick;
     numeric_affinity := @numeric_affinity E |}.

(** ** Sample data *)

(** The snapshot of [test_normalize_json_handles_missing_values]. *)
Definition incomplete_json : snapshot :=
  [("id", {[ "0" := PStr "test1"; "1" := PStr "test2" ]});
   ("title", {[ "0" := PStr "Song1" ]})].

(** A snapshot that has an attribute called [index]. *)
Definition indexed_json : snapshot :=
  [("index", {[ "0" := PInt 7 ]})].

(** A snapshot that rates its first song and not its second. *)
Definition rated_json : snapshot :=
  [("id", {[ "0" := PStr "a"; "1" := PStr "b" ]});
   ("star_rating", {[ "0" := PFloat 3 ]})].

(** The defaults of [config.py]. *)
Definition default_config : Config :=
  {| DATABASE_URL := "database.db"; DEFAULT_JSON_FILE := "playlist.json" |}.

Definition song_a : row :=
  {| r_id := Some "a"; r_title := Some "X";
     r_analysis := replicate 16 SNull; r_star_rating := 0 |}.

Definition one_song : gmap Z row := {[ 0 := song_a ]}.

(** A world for the default paths: whether each file exists, the table of
    the database, and the two modification times. *)
Definition probes (json_there db_there : bool) (table : option (gmap Z row))
    (json_mtime db_mtime : Q) : world :=
  {| path_exists := fun p =>
       if decide (p = "playlist.json") then json_there else db_there;
     getmtime := fun p =>
       if decide (p = "playlist.json") then json_mtime else db_mtime;
     songs_at := fun _ => table |}.

(** An engine to run the examples on: it writes a real as a fraction,
    accepts only integers as keys and leaves numeric cells as they are. The
    theorems are about every engine. *)
Definition example_engine : Engine :=
  {| real_to_text := fun q =>
       pretty (Qnum q) +:+ "/" +:+ pretty (Zpos (Qden q));
     coerce_rowid := fun _ => None;
     unused_rowid := fun _ => None;
     numeric_affinity := fun _ v => v |}.

(** The snapshot of the end-to-end example of the specification. *)
Definition two_songs : snapshot :=
  [("id", {[ "0" := PStr "a"; "1" := PStr "b" ]});
   ("title", {[ "0" := PStr "X"; "1" := PStr "Y" ]})].

(** A snapshot whose [index] attribute gives both songs the same key. *)
Definition clashing_json : snapshot :=
  [("id", {[ "0" := PStr "a"; "1" := PStr "b" ]});
   ("index", {[ "0" := PInt 3; "1" := PInt 3 ]})].

(** A snapshot whose only id is a number. *)
Definition numeric_id_json : snapshot :=
  [("id", {[ "0" := PInt 5 ]})].

Definition example_fs (p : string) : json_file :=
  if decide (p = "playlist.json") then Parsed (Some two_songs)
  else if decide (p = "clashing.json") then Parsed (Some clashing_json)
  else if decide (p = "numeric.json") then Parsed (Some numeric_id_json)
  else if decide (p = "broken.json") then Malformed
  else Missing.

(** Two stored songs with the same id, rated 2 and 4. *)
Definition twins : gmap Z row :=
  {[ 0 := set_rating 2 song_a; 1 := set_rating 4 song_a ]}.

(** * Properties *)

(** ** Dictionaries *)

Module PyDictFacts.
Import PyDict.

Lemma lookup_set_eq {V} (d : t V) k v : lookup (set d k v) k = Some v.
Proof.
  induction d as [|[k' v'] d IH]; simpl.
  - by rewrite decide_True.
  - destruct (decide (k' = k)) as [->|Hne]; simpl.
    + by rewrite decide_True.
    + by rewrite decide_False.
Qed.

Lemma lookup_set_ne {V} (d : t V) k k' v :
  k ≠ k' → lookup (set d k v) k' = lookup d k'.
Proof.
  intros Hne. induction d as [|[k0 v0] d IH]; simpl.
  - by rewrite decide_False.
  - destruct (decide (k0 = k)) as [->|Hk0]; simpl.
    + by rewrite !decide_False.
    + destruct (decide (k0 = k')); [done | apply IH].
Qed.

Lemma lookup_None {V} (d : t V) k : lookup d k = None ↔ k ∉ keys d.
Proof.
  unfold keys. induction d as [|[k' v'] d IH]; simpl.
  - split; [intros _; apply not_elem_of_nil | done].
  - rewrite not_elem_of_cons. destruct (decide (k' = k)) as [->|Hne].
    + split; [done | by intros [? _]].
    + rewrite IH. split; [by intros ? | by intros [_ ?]].
Qed.

Lemma lookup_elem_of {V} (d : t V) k v :
  wf d → (k, v) ∈ d → lookup d k = Some v.
Proof.
  unfold wf, keys. induction d as [|[k' v'] d IH]; simpl.
  - intros _ Hin. by apply elem_of_nil in Hin.
  - rewrite NoDup_cons. intros [Hk' Hnd] Hin.
    apply elem_of_cons in Hin as [[= -> ->]|Hin].
    + by rewrite decide_True.
    + rewrite decide_False; [by apply IH |].
      intros ->. apply Hk'. apply list_elem_of_fmap. by exists (k, v).
Qed.

Lemma lookup_Some_elem_of {V} (d : t V) k v :
  lookup d k = Some v → (k, v) ∈ d.
Proof.
  induction d as [|[k' v'] d IH]; simpl; [done |].
  destruct (decide (k' = k)) as [->|Hne].
  - intros [= ->]. apply elem_of_cons. by left.
  - intros Hl. apply elem_of_cons. right. by apply IH.
Qed.

Lemma mem_true {V} (d : t V) k : mem d k = true ↔ is_Some (lookup d k).
Proof. unfold mem. apply bool_decide_eq_true. Qed.

End PyDictFacts.

(** ** Normalisation *)

Section Normalize.
Import PyDict PyDictFacts.

Lemma fill_song_other (d : snapshot) i (s : song) k :
  k ∉ keys d → lookup (fill_song d i s) k = lookup s k.
Proof.
  unfold fill_song, keys.
  induction d as [|[a values] d IH] in s |- *; simpl; [done |].
  rewrite not_elem_of_cons. intros [Hne Hk].
  rewrite IH by done. by apply lookup_set_ne.
Qed.

Lemma fill_song_attr (d : snapshot) i (s : song) attr values :
  wf d → lookup d attr = Some values →
  lookup (fill_song d i s) attr = Some (values_get values i).
Proof.
  unfold wf, keys.
  induction d as [|[a vs] d IH] in s |- *; simpl; [done |].
  rewrite NoDup_cons. intros [Ha Hnd].
  destruct (decide (a = attr)) as [->|Hne].
  - intros [= ->]. change (foldl _ ?s0 d) with (fill_song d i s0).
    rewrite fill_song_other by done. apply lookup_set_eq.
  - intros Hl. by apply IH.
Qed.

Lemma normalize_json_length (d : snapshot) :
  length (normalize_json (Some d)) = song_count d.
Proof.
  destruct d as [|[a values] d]; [done |].
  unfold normalize_json. by rewrite length_fmap, length_seq.
Qed.

Lemma normalize_json_lookup (d : snapshot) (i : nat) :
  (i < song_count d)%nat →
  normalize_json (Some d) !! i = Some (build_song d i).
Proof.
  intros Hi. destruct d as [|[a values] d]; [simpl in Hi; lia |].
  unfold normalize_json. rewrite list_lookup_fmap.
  by rewrite lookup_seq_lt.
Qed.

Lemma build_song_attr (d : snapshot) i attr values :
  wf d → lookup d attr = Some values →
  lookup (build_song d i) attr = Some (values_get values i).
Proof.
  intros Hwf Hl. unfold build_song.
  pose proof (fill_song_attr d i [("index", PInt (Z.of_nat i))] attr values
                Hwf Hl) as Hfill.
  destruct (mem _ "star_rating") eqn:Hmem; [done |].
  rewrite lookup_set_ne; [done |].
  intros <-. apply not_true_iff_false in Hmem. apply Hmem.
  apply mem_true. by rewrite Hfill.
Qed.

Lemma build_song_star_rating_default (d : snapshot) i :
  lookup d "star_rating" = None →
  lookup (build_song d i) "star_rating" = Some (PFloat 0).
Proof.
  intros Hl. unfold build_song.
  assert (lookup (fill_song d i [("index", PInt (Z.of_nat i))])
            "star_rating" = None) as Hfill.
  { rewrite fill_song_other by by apply lookup_None. done. }
  destruct (mem _ "star_rating") eqn:Hmem.
  - apply mem_true in Hmem. rewrite Hfill in Hmem. by destruct Hmem.
  - apply lookup_set_eq.
Qed.

Lemma build_song_index (d : snapshot) i :
  lookup d "index" = None →
  lookup (build_song d i) "index" = Some (PInt (Z.of_nat i)).
Proof.
  intros Hl. unfold build_song.
  assert (lookup (fill_song d i [("index", PInt (Z.of_nat i))]) "index"
          = Some (PInt (Z.of_nat i))) as Hfill.
  { rewrite fill_song_other by by apply lookup_None. done. }
  destruct (mem _ "star_rating"); [done |].
  by rewrite lookup_set_ne.
Qed.

End Normalize.

Section NormalizeClaims.
Import PyDict PyDictFacts.

Lemma build_song_has_star_rating (d : snapshot) i :
  is_Some (lookup (build_song d i) "star_rating").
Proof.
  unfold build_song. destruct (mem _ "star_rating") eqn:Hmem.
  - by apply mem_true.
  - rewrite lookup_set_eq. by eexists.
Qed.

(** What [normalize_json] does guarantee: no records for an absent or
    empty snapshot; otherwise as many records as the first attribute has
    entries, each with a [star_rating] field, which is [0.0] when the
    snapshot has no such attribute, and, provided the snapshot has no
    attribute called [index], with its position as [index]. *)
Lemma normalize_json_records (d : snapshot) :
  normalize_json None = [] ∧ normalize_json (Some []) = [] ∧
  length (normalize_json (Some d)) = song_count d ∧
  ∀ i, (i < song_count d)%nat →
    ∃ s, normalize_json (Some d) !! i = Some s ∧
         is_Some (lookup s "star_rating") ∧
         (lookup d "star_rating" = None →
          lookup s "star_rating" = Some (PFloat 0)) ∧
         (lookup d "index" = None →
          lookup s "index" = Some (PInt (Z.of_nat i))).
Proof.
  repeat split; [apply normalize_json_length |].
  intros i Hi. exists (build_song d i).
  split; [by apply normalize_json_lookup |].
  split; [apply build_song_has_star_rating |].
  split; [apply build_song_star_rating_default | apply build_song_index].
Qed.

(** C2, at a snapshot with an attribute called [index]: the first attribute
    has one entry and [normalize_json] yields one record, but the record's
    [index] is the snapshot's value 7, not its position 0. *)
Theorem normalize_json_index_overwritten :
  song_count indexed_json = 1%nat ∧
  normalize_json (Some indexed_json)
    = [[("index", PInt 7); ("star_rating", PFloat 0)]] ∧
  ∃ s, normalize_json (Some indexed_json) !! 0%nat = Some s ∧
       lookup s "index" = Some (PInt 7).
Proof.
  split; [by vm_compute |]. split; [by vm_compute |].
  eexists. split; by vm_compute.
Qed.

(** C6: in a snapshot [d], if attribute [attr] has no entry at key [str i]
    for a position [i] below the record count, then record [i] of
    [normalize_json] has the field [attr], and its value is [None]. *)
Theorem normalize_json_absent_is_None (d : snapshot) (i : nat)
    (attr : string) (values : gmap string pyval) :
  wf d → (i < song_count d)%nat →
  lookup d attr = Some values → values !! str i = None →
  ∃ s, normalize_json (Some d) !! i = Some s ∧
       lookup s attr = Some PNone.
Proof.
  intros Hwf Hi Hattr Hmiss. exists (build_song d i).
  split; [by apply normalize_json_lookup |].
  rewrite (build_song_attr d i attr values Hwf Hattr).
  unfold values_get. by rewrite Hmiss.
Qed.

Lemma normalize_json_absent_is_None_witness :
  wf incomplete_json ∧ (1 < song_count incomplete_json)%nat ∧
  ∃ s, normalize_json (Some incomplete_json) !! 1%nat = Some s ∧
       lookup s "title" = Some PNone.
Proof.
  assert (wf incomplete_json) as Hwf.
  { apply (bool_decide_unpack _). by vm_compute. }
  split; [exact Hwf |]. split; [vm_compute; lia |].
  apply (normalize_json_absent_is_None incomplete_json 1 "title"
           {[ "0" := PStr "Song1" ]}); [exact Hwf | vm_compute; lia | | ];
    by vm_compute.
Defined.

(** C9: when the snapshot itself has an attribute [star_rating], record
    [i] takes its [star_rating] from that attribute, so it is [None] where
    the attribute has no entry at [str i]; the default [0.0] is what the
    record gets when the snapshot has no such attribute. *)
Theorem normalize_json_star_rating (d : snapshot) (i : nat) :
  wf d → (i < song_count d)%nat →
  ∃ s, normalize_json (Some d) !! i = Some s ∧
       match lookup d "star_rating" with
       | Some values =>
           lookup s "star_rating" = Some (values_get values i) ∧
           (values !! str i = None → lookup s "star_rating" = Some PNone)
       | None => lookup s "star_rating" = Some (PFloat 0)
       end.
Proof.
  intros Hwf Hi. exists (build_song d i).
  split; [by apply normalize_json_lookup |].
  destruct (lookup d "star_rating") as [values|] eqn:Hsr.
  - rewrite (build_song_attr d i "star_rating" values Hwf Hsr).
    split; [done |]. intros Hmiss. unfold values_get. by rewrite Hmiss.
  - by apply build_song_star_rating_default.
Qed.

Lemma normalize_json_star_rating_witness :
  wf rated_json ∧ (1 < song_count rated_json)%nat ∧
  ∃ s, normalize_json (Some rated_json) !! 1%nat = Some s ∧
       lookup s "star_rating" = Some PNone.
Proof.
  assert (wf rated_json) as Hwf.
  { apply (bool_decide_unpack _). by vm_compute. }
  assert (1 < song_count rated_json)%nat as Hlt by (vm_compute; lia).
  split; [exact Hwf |]. split; [exact Hlt |].
  destruct (normalize_json_star_rating rated_json 1 Hwf Hlt)
    as (s & Hs & Hsr).
  exists s. split; [exact Hs |].
  change (lookup rated_json "star_rating")
    with (Some ({[ "0" := PFloat 3 ]} : gmap string pyval)) in Hsr.
  apply Hsr. by vm_compute.
Defined.

End NormalizeClaims.

(** ** The reload decision *)

Section ReloadDecision.
Variable config : Config.
Variable w : world.

(** C1: with [j] the snapshot path and [d] the database path (the
    configured defaults when not given), [should_reload_data] is false
    when [j] does not exist; true when [j] exists and [d] does not; true
    when both exist and the [songs] table of [d] is empty or cannot be
    read; and otherwise true exactly when the modification time of [j] is
    strictly greater than that of [d]. *)
Theorem should_reload_data_spec (json_file db_file : option string) :
  let j := default (DEFAULT_JSON_FILE config) json_file in
  let d := default (DATABASE_URL config) db_file in
  (path_exists w j = false →
   should_reload_data config w json_file db_file = false) ∧
  (path_exists w j = true → path_exists w d = false →
   should_reload_data config w json_file db_file = true) ∧
  (path_exists w j = true → path_exists w d = true →
   songs_at w d = None ∨ (∃ t, songs_at w d = Some t ∧ size t = 0%nat) →
   should_reload_data config w json_file db_file = true) ∧
  (path_exists w j = true → path_exists w d = true →
   ∀ t, songs_at w d = Some t → size t ≠ 0%nat →
   (should_reload_data config w json_file db_file = true
    ↔ (getmtime w d < getmtime w j)%Q)).
Proof.
  intros j d. unfold should_reload_data, count_songs. fold j d.
  split; [by intros -> |]. split; [by intros -> -> |]. split.
  - intros -> -> [-> | (t & -> & Hsz)]; simpl; [done |].
    rewrite Hsz. by rewrite decide_True.
  - intros -> -> t -> Hsz. simpl.
    rewrite decide_False by lia. apply bool_decide_eq_true.
Qed.

End ReloadDecision.

Lemma should_reload_data_spec_witness :
  should_reload_data default_config
    (probes false true (Some one_song) 2 1) None None = false ∧
  should_reload_data default_config
    (probes true false None 2 1) None None = true ∧
  should_reload_data default_config
    (probes true true None 1 2) None None = true ∧
  should_reload_data default_config
    (probes true true (Some ∅) 1 2) None None = true ∧
  (should_reload_data default_config
     (probes true true (Some one_song) 2 1) None None = true
   ∧ (1 < 2)%Q) ∧
  (¬ should_reload_data default_config
       (probes true true (Some one_song) 1 1) None None = true
   ∧ ¬ (1 < 1)%Q).
Proof.
  pose proof (fun w => should_reload_data_spec default_config w None None)
    as Hspec. simpl in Hspec.
  assert (size one_song ≠ 0%nat) as Hsz
    by (unfold one_song; rewrite map_size_singleton; lia).
  assert (1 < 2)%Q as Hlt by by vm_compute.
  assert (¬ (1 < 1)%Q) as Hnlt by (intros Hlt'; by vm_compute in Hlt').
  split.
  { apply (proj1 (Hspec (probes false true (Some one_song) 2 1))).
    reflexivity. }
  split.
  { apply (proj1 (proj2 (Hspec (probes true false None 2 1))));
      reflexivity. }
  split.
  { apply (proj1 (proj2 (proj2 (Hspec (probes true true None 1 2))))
             eq_refl eq_refl). by left. }
  split.
  { apply (proj1 (proj2 (proj2 (Hspec (probes true true (Some ∅) 1 2))))
             eq_refl eq_refl).
    right. exists ∅. split; [reflexivity | apply map_size_empty]. }
  split.
  { split; [| exact Hlt].
    apply (proj2 (proj2 (proj2 (Hspec (probes true true (Some one_song) 2 1))))
             eq_refl eq_refl one_song eq_refl Hsz). exact Hlt. }
  split; [| exact Hnlt]. intros Hres. apply Hnlt.
  apply (proj2 (proj2 (proj2 (Hspec (probes true true (Some one_song) 1 1))))
           eq_refl eq_refl one_song eq_refl Hsz). exact Hres.
Defined.

(** ** Rating *)

Lemma rowcount_zero (song_id : string) (t : gmap Z row) :
  size (filter (fun kr : Z * row => has_id song_id kr.2) t) = 0%nat
  ↔ ∀ k r, t !! k = Some r → r_id r ≠ Some song_id.
Proof.
  rewrite map_size_empty_iff, map_empty. split.
  - intros Hnone k r Hk Hid.
    destruct (map_lookup_filter_None_1 _ _ _ (Hnone k)) as [Hn | Hn].
    + by rewrite Hk in Hn.
    + by apply (Hn r Hk).
  - intros Hall k. apply map_lookup_filter_None_2.
    destruct (t !! k) as [r|] eqn:Hk; [right | by left].
    intros r' [= <-]. by apply (Hall k r).
Qed.

Lemma rate_song_invalid (song_id : string) (rating : Q) (t : gmap Z row) :
  ¬ (0 <= rating ∧ rating <= 5)%Q →
  rate_song song_id rating t = (Raise (HTTPException 400), t).
Proof. intros Hbad. unfold rate_song. by rewrite decide_False. Qed.

Lemma rate_song_not_found (song_id : string) (rating : Q) (t : gmap Z row) :
  (0 <= rating ∧ rating <= 5)%Q →
  (∀ k r, t !! k = Some r → r_id r ≠ Some song_id) →
  rate_song song_id rating t = (Raise (HTTPException 404), t).
Proof.
  intros Hok Hnone. apply rowcount_zero in Hnone.
  unfold rate_song. rewrite decide_True by done.
  unfold with_connection, mbind, db_bind, execute_update_rating. simpl.
  rewrite Hnone. by rewrite decide_True.
Qed.

Lemma rate_song_found (song_id : string) (rating : Q) (t : gmap Z row) :
  (0 <= rating ∧ rating <= 5)%Q →
  (∃ k r, t !! k = Some r ∧ r_id r = Some song_id) →
  rate_song song_id rating t = (Ok (song_id, rating), rated rating song_id t).
Proof.
  intros Hok (k & r & Hk & Hid).
  unfold rate_song. rewrite decide_True by done.
  unfold with_connection, mbind, db_bind, execute_update_rating. simpl.
  rewrite decide_False; [done |].
  intros Hzero. by apply (proj1 (rowcount_zero song_id t) Hzero k r).
Qed.

(** C4: [rate_song] fails with status 400 when the rating is outside
    [0,5], whatever the table, which it leaves as it is; fails with status
    404 when no row has the given id, leaving the table as it is; and
    otherwise replies with the rating, and the table as stored afterwards
    has that rating in every row with the id and is unchanged elsewhere. *)
Theorem rate_song_spec (song_id : string) (rating : Q) (t : gmap Z row) :
  (¬ (0 <= rating ∧ rating <= 5)%Q →
   rate_song song_id rating t = (Raise (HTTPException 400), t)) ∧
  ((0 <= rating ∧ rating <= 5)%Q →
   (∀ k r, t !! k = Some r → r_id r ≠ Some song_id) →
   rate_song song_id rating t = (Raise (HTTPException 404), t)) ∧
  ((0 <= rating ∧ rating <= 5)%Q →
   (∃ k r, t !! k = Some r ∧ r_id r = Some song_id) →
   ∃ t', rate_song song_id rating t = (Ok (song_id, rating), t') ∧
     ∀ k, match t !! k with
          | Some r =>
              if decide (r_id r = Some song_id)
              then ∃ r', t' !! k = Some r' ∧ r_star_rating r' = rating ∧
                         r_id r' = r_id r ∧ r_title r' = r_title r ∧
                         r_analysis r' = r_analysis r
              else t' !! k = Some r
          | None => t' !! k = None
          end).
Proof.
  split; [apply rate_song_invalid |]. split; [apply rate_song_not_found |].
  intros Hok Hex. exists (rated rating song_id t).
  split; [by apply rate_song_found |].
  intros k. unfold rated. rewrite lookup_fmap.
  destruct (t !! k) as [r|]; simpl; [| done].
  unfold has_id. destruct (decide (r_id r = Some song_id)); [| done].
  by eexists.
Qed.

Lemma rate_song_spec_witness :
  (¬ (0 <= 6 ∧ 6 <= 5)%Q ∧
   rate_song "a" 6 one_song = (Raise (HTTPException 400), one_song)) ∧
  ((0 <= 9 # 2 ∧ 9 # 2 <= 5)%Q ∧
   (∀ k r, one_song !! k = Some r → r_id r ≠ Some "b") ∧
   rate_song "b" (9 # 2) one_song = (Raise (HTTPException 404), one_song)) ∧
  ((∃ k r, one_song !! k = Some r ∧ r_id r = Some "a") ∧
   ∃ t', rate_song "a" (9 # 2) one_song = (Ok ("a", 9 # 2), t') ∧
         ∃ r', t' !! 0 = Some r' ∧ r_star_rating r' = 9 # 2).
Proof.
  assert (¬ (0 <= 6 ∧ 6 <= 5)%Q) as Hbad.
  { intros [_ Hle]. by vm_compute in Hle. }
  assert (0 <= 9 # 2 ∧ 9 # 2 <= 5)%Q as Hok.
  { split; by vm_compute. }
  assert (∀ k r, one_song !! k = Some r → r_id r ≠ Some "b") as Hnone.
  { intros k r Hk. unfold one_song in Hk.
    apply lookup_singleton_Some in Hk as [_ <-]. done. }
  assert (∃ k r, one_song !! k = Some r ∧ r_id r = Some "a") as Hsome.
  { exists 0, song_a. split; [apply lookup_singleton_eq | done]. }
  split; [split; [exact Hbad |] |].
  { apply (proj1 (rate_song_spec "a" 6 one_song) Hbad). }
  split; [split; [exact Hok |]; split; [exact Hnone |] |].
  { apply (proj1 (proj2 (rate_song_spec "b" (9 # 2) one_song)) Hok Hnone). }
  split; [exact Hsome |].
  destruct (proj2 (proj2 (rate_song_spec "a" (9 # 2) one_song)) Hok Hsome)
    as (t' & Hrun & Hrows).
  exists t'. split; [exact Hrun |].
  specialize (Hrows 0). unfold one_song in Hrows.
  rewrite lookup_singleton_eq in Hrows. simpl in Hrows.
  destruct Hrows as (r' & Hr' & Hrating & _). by exists r'.
Defined.

(** ** Reading *)

#[global] Instance idx_le_trans : Transitive idx_le.
Proof. intros a b c. unfold idx_le. lia. Qed.
#[global] Instance idx_le_total : Total idx_le.
Proof. intros a b. unfold idx_le. lia. Qed.

Lemma scan_Permutation (t : gmap Z row) : scan t ≡ₚ map_to_list t.
Proof. apply merge_sort_Permutation. Qed.

Lemma elem_of_scan (t : gmap Z row) (k : Z) (r : row) :
  (k, r) ∈ scan t ↔ t !! k = Some r.
Proof. rewrite scan_Permutation. apply elem_of_map_to_list. Qed.

Lemma length_scan (t : gmap Z row) : length (scan t) = size t.
Proof. rewrite scan_Permutation. apply length_map_to_list. Qed.

Lemma NoDup_fst_scan (t : gmap Z row) : NoDup (scan t).*1.
Proof. rewrite scan_Permutation. apply NoDup_fst_map_to_list. Qed.

Lemma StronglySorted_strict (l : list (Z * row)) :
  StronglySorted idx_le l → NoDup l.*1 → StronglySorted idx_lt l.
Proof.
  induction 1 as [|a l Hl IH Hall]; simpl; [constructor |].
  rewrite NoDup_cons. intros [Ha Hnd]. constructor; [by apply IH |].
  rewrite Forall_forall in Hall |- *. intros b Hb.
  specialize (Hall b Hb). unfold idx_le in Hall. unfold idx_lt.
  assert (a.1 ≠ b.1); [| lia].
  intros Heq. apply Ha. rewrite Heq. apply list_elem_of_fmap. by exists b.
Qed.

Lemma scan_sorted (t : gmap Z row) : StronglySorted idx_lt (scan t).
Proof.
  apply StronglySorted_strict; [| apply NoDup_fst_scan].
  apply StronglySorted_merge_sort; apply _.
Qed.

Lemma song_of_row_index (kr : Z * row) :
  PyDict.lookup (song_of_row kr) "index" = Some (SInt kr.1).
Proof. unfold song_of_row. by rewrite PyDictFacts.lookup_set_eq. Qed.

Lemma get_all_songs_run (page limit : Z) (t : gmap Z row) :
  1 ≤ page → 1 ≤ limit < 2 ^ 63 → (page - 1) * limit < 2 ^ 63 →
  get_all_songs page limit t
  = (Ok (song_of_row <$>
         take (Z.to_nat limit)
              (drop (Z.to_nat ((page - 1) * limit)) (scan t))), t).
Proof.
  intros Hpage Hlimit Hoffset.
  unfold get_all_songs, with_connection, mbind, db_bind,
    execute_select_page. simpl.
  rewrite decide_True by nia. simpl. by rewrite decide_False by lia.
Qed.

Lemma get_all_songs_refused (page limit : Z) (t : gmap Z row) :
  ¬ ((- 2 ^ 63 ≤ limit < 2 ^ 63)
     ∧ (- 2 ^ 63 ≤ (page - 1) * limit < 2 ^ 63)) →
  get_all_songs page limit t = (Raise IntegrityError, t).
Proof.
  intros Hout. unfold get_all_songs, with_connection, mbind, db_bind,
    execute_select_page. simpl. by rewrite decide_False.
Qed.

Lemma get_all_songs_answers (page limit : Z) (t : gmap Z row) :
  (- 2 ^ 63 ≤ limit < 2 ^ 63) →
  (- 2 ^ 63 ≤ (page - 1) * limit < 2 ^ 63) →
  ∃ rows, get_all_songs page limit t = (Ok (song_of_row <$> rows), t) ∧
          rows ⊆ scan t.
Proof.
  intros Hlimit Hoffset. eexists. split.
  - unfold get_all_songs, with_connection, mbind, db_bind,
      execute_select_page. simpl. rewrite decide_True by done. reflexivity.
  - destruct (decide (limit < 0)).
    + apply subseteq_drop.
    + etrans; [apply subseteq_take | apply subseteq_drop].
Qed.

(** What [get_all_songs] does for a page whose offset fits in 64 bits: for
    [page >= 1], [1 <= limit <= 100] and [(page-1)*limit < 2^63] it answers
    with the rows in strictly ascending [idx] order, without the first
    [(page-1)*limit] of them and cut after [limit], and with the empty list
    when that offset is at or beyond the number of rows. *)
Lemma get_all_songs_in_range (page limit : Z) (t : gmap Z row) :
  1 ≤ page → 1 ≤ limit ≤ 100 → (page - 1) * limit < 2 ^ 63 →
  let offset := Z.to_nat ((page - 1) * limit) in
  scan t ≡ₚ map_to_list t ∧
  StronglySorted idx_lt (scan t) ∧
  (∀ kr, PyDict.lookup (song_of_row kr) "index" = Some (SInt kr.1)) ∧
  get_all_songs page limit t
    = (Ok (song_of_row <$> take (Z.to_nat limit) (drop offset (scan t))),
       t) ∧
  ((size t ≤ offset)%nat → get_all_songs page limit t = (Ok [], t)).
Proof.
  intros Hpage Hlimit Hoffset offset.
  pose proof (get_all_songs_run page limit t Hpage ltac:(lia) Hoffset)
    as Hrun.
  split; [apply scan_Permutation |]. split; [apply scan_sorted |].
  split; [apply song_of_row_index |]. split; [exact Hrun |].
  intros Hbeyond. rewrite Hrun. fold offset.
  rewrite drop_ge by (rewrite length_scan; lia). by rewrite take_nil.
Qed.

(** C7, at the validated input [page = 10^18], [limit = 100] on a table of
    one song: the offset is beyond the number of rows, and [get_all_songs]
    does not answer with the empty list but raises, the offset
    [(10^18-1)*100] being no 64-bit integer. The table is as it was. *)
Theorem get_all_songs_huge_page :
  1 ≤ 10 ^ 18 ∧ 1 ≤ 100 ≤ 100 ∧
  (size one_song ≤ Z.to_nat ((10 ^ 18 - 1) * 100))%nat ∧
  get_all_songs (10 ^ 18) 100 one_song = (Raise IntegrityError, one_song).
Proof.
  split; [lia |]. split; [lia |]. split.
  - unfold one_song. rewrite map_size_singleton. lia.
  - apply get_all_songs_refused. lia.
Qed.




(** ** Ingestion *)

Section IngestionFacts.
Context `{Engine}.

Lemma insert_row_Ok (t t' : gmap Z row) idx id title analysis q :
  insert_row t idx id title analysis q = Ok t' →
  ∃ k r, build_row id title analysis q = Ok r ∧ t !! k = None ∧
         t' = <[k := r]> t.
Proof.
  unfold insert_row, mbind, result_bind.
  destruct (bind_param idx) as [c_idx|]; [| done].
  destruct (build_row id title analysis q) as [r|]; [| done].
  destruct (rowid_of_cell t c_idx) as [k|]; [| done].
  destruct (decide (is_Some (t !! k))) as [|Hfree]; [done |].
  intros [= <-]. exists k, r.
  by rewrite <- eq_None_not_Some in Hfree.
Qed.

Lemma insert_song_Ok p ov (s : song) (c c' : conn) :
  insert_song p ov s c = (Ok (), c') →
  committed c' = committed c ∧
  ∃ k q r, preserved_rating p ov s = Ok q ∧ row_of_song s q = Ok r ∧
           pending c !! k = None ∧ pending c' = <[k := r]> (pending c).
Proof.
  unfold insert_song, mbind, db_bind, lift, execute_insert.
  destruct (preserved_rating p ov s) as [q|]; [| done].
  destruct (insert_row _ _ _ _ _ _) as [t'|] eqn:Hins; [| done].
  intros [= <-]. simpl. split; [done |].
  apply insert_row_Ok in Hins as (k & r & Hrow & Hfree & ->).
  by exists k, q, r.
Qed.

Lemma insert_song_Raise p ov (s : song) (c c' : conn) e :
  insert_song p ov s c = (Raise e, c') → c' = c.
Proof.
  unfold insert_song, mbind, db_bind, lift, execute_insert.
  destruct (preserved_rating p ov s) as [q|]; [| by intros [= _ <-]].
  destruct (insert_row _ _ _ _ _ _) as [t'|]; [done |].
  by intros [= _ <-].
Qed.

(** The loop, when it completes: nothing is committed, one row has been
    added per song, under a key that was free, and nothing else has
    changed. *)
Lemma for_each_insert_Ok p ov (songs : list song) (c c' : conn) :
  for_each songs (insert_song p ov) c = (Ok (), c') →
  committed c' = committed c ∧
  size (pending c') = (size (pending c) + length songs)%nat ∧
  pending c ⊆ pending c' ∧
  (∀ k r, pending c' !! k = Some r →
     pending c !! k = Some r ∨
     ∃ s q, s ∈ songs ∧ preserved_rating p ov s = Ok q ∧
            row_of_song s q = Ok r) ∧
  (∀ s, s ∈ songs →
     ∃ k q r, pending c !! k = None ∧ pending c' !! k = Some r ∧
              preserved_rating p ov s = Ok q ∧ row_of_song s q = Ok r).
Proof.
  induction songs as [|s songs IH] in c |- *; simpl.
  - intros [= <-]. split; [done |]. split; [lia |]. split; [done |].
    split; [by left |]. intros s Hs. by apply elem_of_nil in Hs.
  - unfold mbind at 1, db_bind at 1.
    destruct (insert_song p ov s c) as [[[]|e] c1] eqn:Hone; [| done].
    intros Hrest.
    apply insert_song_Ok in Hone as (Hcom1 & k & q & r & Hq & Hr & Hfree & Hp1).
    apply IH in Hrest as (Hcom & Hsize & Hsub & Hsound & Hcomplete).
    rewrite Hp1 in Hsize, Hsub, Hsound, Hcomplete.
    rewrite map_size_insert_None in Hsize by done.
    split; [congruence |]. split; [lia |]. split; [| split].
    + etrans; [| exact Hsub]. by apply insert_subseteq.
    + intros k' r' Hk'. destruct (Hsound k' r' Hk') as [Hold | Hnew].
      * apply lookup_insert_Some in Hold as [[<- <-] | [_ Hold]].
        -- right. exists s, q. split; [apply elem_of_cons; by left | done].
        -- by left.
      * right. destruct Hnew as (s' & q' & Hs' & Hrest).
        exists s', q'. split; [apply elem_of_cons; by right | done].
    + intros s' Hs'. apply elem_of_cons in Hs' as [-> | Hs'].
      * exists k, q, r. split; [done |]. split; [| done].
        eapply lookup_weaken; [| exact Hsub]. apply lookup_insert_eq.
      * destruct (Hcomplete s' Hs') as (k' & q' & r' & Hfree' & Hrest).
        exists k', q', r'. split; [| done].
        apply lookup_insert_None in Hfree'. tauto.
Qed.

(** The loop, when a statement fails: nothing is committed. *)
Lemma for_each_insert_Raise p ov (songs : list song) (c c' : conn) e :
  for_each songs (insert_song p ov) c = (Raise e, c') →
  committed c' = committed c.
Proof.
  induction songs as [|s songs IH] in c |- *; simpl; [done |].
  unfold mbind at 1, db_bind at 1.
  destruct (insert_song p ov s c) as [[[]|e1] c1] eqn:Hone.
  - intros Hrest. apply IH in Hrest.
    apply insert_song_Ok in Hone as [Hcom1 _]. congruence.
  - intros [= _ <-]. by apply insert_song_Raise in Hone as ->.
Qed.

End IngestionFacts.

Section LoadData.
Context `{Engine}.

Lemma load_data_Parsed fs path p (t : gmap Z row) json_data :
  fs path = Parsed json_data →
  load_data fs path p t =
    match for_each (normalize_json json_data) (insert_song p (overlay p t))
                   {| committed := t; pending := ∅ |} with
    | (Ok _, c) => (Ok (length (normalize_json json_data)), pending c)
    | (Raise e, c) => (Raise e, committed c)
    end.
Proof.
  intros Hfs. unfold load_data. rewrite Hfs.
  unfold with_connection, overlay.
  destruct p; unfold mbind, db_bind, try_except, execute_select_rated,
    execute_delete, commit, close, mret, db_ret; simpl;
    by destruct (for_each _ _ _) as [[[]|e] c].
Qed.

Lemma load_data_Raise fs path p (t t' : gmap Z row) e :
  load_data fs path p t = (Raise e, t') → t' = t.
Proof.
  destruct (fs path) as [| |json_data] eqn:Hfs.
  - unfold load_data. rewrite Hfs. by intros [= _ <-].
  - unfold load_data. rewrite Hfs. by intros [= _ <-].
  - rewrite (load_data_Parsed _ _ _ _ _ Hfs).
    destruct (for_each _ _ _) as [[[]|e1] c] eqn:Hloop; [done |].
    intros [= _ <-]. by apply for_each_insert_Raise in Hloop.
Qed.

Lemma load_data_Ok fs path p (t t' : gmap Z row) n :
  load_data fs path p t = (Ok n, t') →
  ∃ json_data, fs path = Parsed json_data ∧
    n = length (normalize_json json_data) ∧
    size t' = length (normalize_json json_data) ∧
    (∀ s, s ∈ normalize_json json_data →
       ∃ k q r, t' !! k = Some r ∧
                preserved_rating p (overlay p t) s = Ok q ∧
                row_of_song s q = Ok r) ∧
    (∀ k r, t' !! k = Some r →
       ∃ s q, s ∈ normalize_json json_data ∧
              preserved_rating p (overlay p t) s = Ok q ∧
              row_of_song s q = Ok r).
Proof.
  destruct (fs path) as [| |json_data] eqn:Hfs;
    [unfold load_data; by rewrite Hfs ..|].
  rewrite (load_data_Parsed _ _ _ _ _ Hfs).
  destruct (for_each _ _ _) as [[[]|e1] c] eqn:Hloop; [| done].
  intros [= <- <-]. exists json_data. split; [done |]. split; [done |].
  apply for_each_insert_Ok in Hloop
    as (_ & Hsize & _ & Hsound & Hcomplete).
  simpl in Hsize, Hsound, Hcomplete. rewrite map_size_empty in Hsize.
  split; [lia |]. split.
  - intros s Hs. destruct (Hcomplete s Hs) as (k & q & r & _ & Hrest).
    by exists k, q, r.
  - intros k r Hk. destruct (Hsound k r Hk) as [Hold | Hnew]; [| done].
    by rewrite lookup_empty in Hold.
Qed.

(** C5: a missing file fails with [FileNotFoundError] and a malformed one
    with [JSONDecodeError], neither touching the table; whenever
    [load_data] fails, also after its [DELETE], the table as stored is
    exactly what it was; and when it succeeds the table holds as many
    rows as there are normalised records, each record having its row and
    each row coming from a record, so it is not empty for a snapshot that
    has a record. *)
Theorem load_data_atomic fs path p (t : gmap Z row) :
  (fs path = Missing →
   load_data fs path p t = (Raise FileNotFoundError, t)) ∧
  (fs path = Malformed →
   load_data fs path p t = (Raise JSONDecodeError, t)) ∧
  (∀ e t', load_data fs path p t = (Raise e, t') → t' = t) ∧
  (∀ n t', load_data fs path p t = (Ok n, t') →
     ∃ json_data, fs path = Parsed json_data ∧
       n = length (normalize_json json_data) ∧
       size t' = length (normalize_json json_data) ∧
       (normalize_json json_data ≠ [] → t' ≠ ∅) ∧
       (∀ s, s ∈ normalize_json json_data →
          ∃ k q r, t' !! k = Some r ∧
                   preserved_rating p (overlay p t) s = Ok q ∧
                   row_of_song s q = Ok r) ∧
       (∀ k r, t' !! k = Some r →
          ∃ s q, s ∈ normalize_json json_data ∧
                 preserved_rating p (overlay p t) s = Ok q ∧
                 row_of_song s q = Ok r)).
Proof.
  split; [by unfold load_data; intros -> |].
  split; [by unfold load_data; intros -> |].
  split; [intros e t'; apply load_data_Raise |].
  intros n t' Hrun.
  destruct (load_data_Ok _ _ _ _ _ _ Hrun)
    as (json_data & Hfs & Hn & Hsize & Hcomplete & Hsound).
  exists json_data. split; [done |]. split; [done |]. split; [done |].
  split; [| done].
  intros Hsongs Hempty. rewrite Hempty, map_size_empty in Hsize.
  destruct (normalize_json json_data); [done | simpl in Hsize; lia].
Qed.

End LoadData.

Lemma load_data_atomic_witness :
  (example_fs "nowhere.json" = Missing ∧
   @load_data example_engine example_fs "nowhere.json" true one_song
     = (Raise FileNotFoundError, one_song)) ∧
  (example_fs "broken.json" = Malformed ∧
   @load_data example_engine example_fs "broken.json" true one_song
     = (Raise JSONDecodeError, one_song)) ∧
  (@load_data example_engine example_fs "clashing.json" true one_song
     = (Raise IntegrityError, one_song)) ∧
  (∃ t', @load_data example_engine example_fs "playlist.json" true one_song
           = (Ok 2%nat, t') ∧ size t' = 2%nat).
Proof.
  pose proof (@load_data_atomic example_engine example_fs) as Hspec.
  split; [split; [reflexivity |] |].
  { apply (proj1 (Hspec "nowhere.json" true one_song)). reflexivity. }
  split; [split; [reflexivity |] |].
  { apply (proj1 (proj2 (Hspec "broken.json" true one_song))). reflexivity. }
  split.
  { destruct (@load_data example_engine example_fs "clashing.json" true
                one_song) as [res t'] eqn:Hrun.
    assert (res = Raise IntegrityError) as ->.
    { vm_compute in Hrun. by injection Hrun as <- _. }
    f_equal.
    apply (proj1 (proj2 (proj2 (Hspec "clashing.json" true one_song)))
             IntegrityError t' Hrun). }
  destruct (@load_data example_engine example_fs "playlist.json" true
              one_song) as [res t'] eqn:Hrun.
  assert (res = Ok 2%nat) as ->.
  { vm_compute in Hrun. by injection Hrun as <- _. }
  exists t'. split; [reflexivity |].
  destruct (proj2 (proj2 (proj2 (Hspec "playlist.json" true one_song)))
              2%nat t' Hrun) as (json_data & Hfs & _ & Hsize & _).
  injection Hfs as <-. exact Hsize.
Defined.

(** ** The ratings carried over *)

Lemma dict_of_rated_snoc (rows : list (option string * Q)) k v :
  dict_of_rated (rows ++ [(k, v)]) = <[k := v]> (dict_of_rated rows).
Proof. unfold dict_of_rated. by rewrite foldl_app. Qed.

Lemma dict_of_rated_elem_of (rows : list (option string * Q)) k v :
  dict_of_rated rows !! k = Some v → (k, v) ∈ rows.
Proof.
  induction rows as [|[k' v'] rows IH] using rev_ind; [done |].
  rewrite dict_of_rated_snoc, elem_of_app, list_elem_of_singleton.
  intros Hl. apply lookup_insert_Some in Hl as [[-> ->] | [_ Hl]].
  - by right.
  - left. by apply IH.
Qed.

Lemma dict_of_rated_is_Some (rows : list (option string * Q)) k :
  k ∈ rows.*1 → is_Some (dict_of_rated rows !! k).
Proof.
  induction rows as [|[k' v'] rows IH] using rev_ind.
  - intros Hk. by apply elem_of_nil in Hk.
  - rewrite fmap_app, elem_of_app, dict_of_rated_snoc. simpl.
    rewrite list_elem_of_singleton. intros Hk.
    destruct (decide (k' = k)) as [->|Hne].
    + rewrite lookup_insert_eq. by eexists.
    + rewrite lookup_insert_ne by done. apply IH.
      destruct Hk as [Hk | ->]; [done | by destruct Hne].
Qed.

Lemma dict_of_rated_last (rows1 rows2 : list (option string * Q)) k v :
  k ∉ rows2.*1 → dict_of_rated (rows1 ++ (k, v) :: rows2) !! k = Some v.
Proof.
  induction rows2 as [|[k' v'] rows2 IH] using rev_ind.
  - intros _. rewrite dict_of_rated_snoc. apply lookup_insert_eq.
  - rewrite fmap_app, not_elem_of_app. simpl.
    rewrite list_elem_of_singleton. intros [Hk Hne].
    rewrite app_comm_cons, app_assoc, dict_of_rated_snoc.
    rewrite lookup_insert_ne by done. by apply IH.
Qed.

Lemma elem_of_select_rated (t : gmap Z row) (id : option string) (q : Q) :
  (id, q) ∈ select_rated t
  ↔ ∃ k r, t !! k = Some r ∧ r_id r = id ∧ r_star_rating r = q ∧ (0 < q)%Q.
Proof.
  unfold select_rated. rewrite list_elem_of_fmap. split.
  - intros ([k r] & [= -> ->] & Hin).
    apply list_elem_of_filter in Hin as [Hpos Hin]. simpl in Hpos.
    apply elem_of_scan in Hin. by exists k, r.
  - intros (k & r & Hk & <- & <- & Hpos). exists (k, r).
    split; [done |]. apply list_elem_of_filter. split; [done |].
    by apply elem_of_scan.
Qed.

(** ** Songs that share an id *)

(** C8, as the code has it: when the rows read for the ratings to carry
    over have the same id more than once, the rating of the last of them is
    the one kept for that id; and a rating update changes every row that
    has the id, not only the first. *)
Theorem duplicate_ids :
  (∀ (t : gmap Z row) (rows1 rows2 : list (option string * Q)) id q,
     select_rated t = (rows1 ++ (id, q) :: rows2)%list → id ∉ rows2.*1 →
     overlay true t !! id = Some q) ∧
  (∀ song_id rating (t : gmap Z row),
     (0 <= rating ∧ rating <= 5)%Q →
     ∀ k r, t !! k = Some r → r_id r = Some song_id →
     ∃ r', (rate_song song_id rating t).2 !! k = Some r' ∧
           r_star_rating r' = rating).
Proof.
  split.
  - intros t rows1 rows2 id q Hrows Hlast. unfold overlay.
    rewrite Hrows. by apply dict_of_rated_last.
  - intros song_id rating t Hok k r Hk Hid.
    rewrite rate_song_found by (done || by exists k, r). simpl.
    unfold rated. rewrite lookup_fmap, Hk. simpl.
    rewrite decide_True by done. by eexists.
Qed.

Lemma duplicate_ids_witness :
  (select_rated twins = [(Some "a", 2%Q); (Some "a", 4%Q)] ∧
   overlay true twins !! Some "a" = Some 4%Q) ∧
  ((0 <= 3 ∧ 3 <= 5)%Q ∧
   ∃ r', (rate_song "a" 3 twins).2 !! 1 = Some r' ∧ r_star_rating r' = 3%Q).
Proof.
  assert (select_rated twins
          = ([(Some "a", 2%Q)] ++ (Some "a", 4%Q) :: [])%list)
    as Hrows by by vm_compute.
  assert (0 <= 3 ∧ 3 <= 5)%Q as Hok by (split; by vm_compute).
  split; [split; [by vm_compute |] | split; [exact Hok |]].
  - apply (proj1 duplicate_ids twins _ _ _ _ Hrows). apply not_elem_of_nil.
  - apply (proj2 duplicate_ids "a" 3%Q twins Hok 1 (set_rating 4 song_a));
      by vm_compute.
Defined.

(** C8 as stated fails: in [twins] the first row with id [a] is row 0, yet
    rating [a] also changes row 1. *)
Lemma rate_song_first_match_only_fails :
  ¬ (∀ k r, twins !! k = Some r → k ≠ 0 →
            (rate_song "a" 3 twins).2 !! k = Some r).
Proof.
  intros Hfirst. specialize (Hfirst 1 (set_rating 4 song_a) eq_refl).
  assert ((rate_song "a" 3 twins).2 !! 1 = Some (set_rating 3 song_a))
    as Hrun by by vm_compute.
  rewrite Hrun in Hfirst. by specialize (Hfirst ltac:(lia)).
Qed.

(** ** Ratings across a reload *)

Lemma rate_song_Ok_inv (song_id : string) (rating : Q) (t t2 : gmap Z row) x :
  rate_song song_id rating t = (Ok x, t2) →
  (0 <= rating ∧ rating <= 5)%Q ∧
  (∃ k r, t !! k = Some r ∧ r_id r = Some song_id) ∧
  x = (song_id, rating) ∧ t2 = rated rating song_id t.
Proof.
  unfold rate_song. destruct (decide _) as [Hok|]; [| done].
  unfold with_connection, mbind, db_bind, execute_update_rating. simpl.
  destruct (decide (size _ = 0%nat)) as [|Hcount]; [done |].
  intros [= <- <-]. split; [done |]. split; [| done].
  apply map_size_non_empty_iff, map_choose in Hcount as (k & r & Hk).
  apply map_lookup_filter_Some in Hk as [Hk Hid]. by exists k, r.
Qed.

Lemma overlay_after_rating (t1 : gmap Z row) (song_id : string) (rating : Q) :
  (∀ k r, t1 !! k = Some r → r_star_rating r = 0%Q) →
  (∀ id q, overlay true (rated rating song_id t1) !! id = Some q →
           id = Some song_id ∧ q = rating) ∧
  ((∃ k r, t1 !! k = Some r ∧ r_id r = Some song_id) →
   overlay true (rated rating song_id t1) !! Some song_id = None →
   ¬ (0 < rating)%Q).
Proof.
  intros Hzero. unfold overlay. split.
  - intros id q Hov. apply dict_of_rated_elem_of in Hov.
    apply elem_of_select_rated in Hov as (k & r' & Hk & <- & <- & Hpos).
    unfold rated in Hk. rewrite lookup_fmap in Hk.
    destruct (t1 !! k) as [r|] eqn:Hk1; [| done]. simpl in Hk.
    injection Hk as <-. destruct (decide (has_id song_id r)) as [Hid|_].
    + done.
    + rewrite (Hzero k r Hk1) in Hpos. by vm_compute in Hpos.
  - intros (k & r & Hk & Hid) Hnone Hpos.
    assert (Some song_id ∈ (select_rated (rated rating song_id t1)).*1)
      as Hin.
    { apply list_elem_of_fmap. exists (Some song_id, rating).
      split; [done |]. apply elem_of_select_rated.
      exists k, (set_rating rating r). split; [| done].
      unfold rated. rewrite lookup_fmap, Hk. simpl.
      by rewrite decide_True. }
    apply dict_of_rated_is_Some in Hin. rewrite Hnone in Hin.
    by destruct Hin.
Qed.

Section Reload.
Context `{Engine}.

Lemma row_of_song_Ok (s : song) (q : Q) (r : row) :
  row_of_song s q = Ok r →
  r_star_rating r = q ∧
  ∃ c, bind_param (py_get s "id") = Ok c ∧ r_id r = text_affinity c.
Proof.
  unfold row_of_song, build_row, mbind, result_bind, mret, result_ret.
  destruct (bind_param (py_get s "id")) as [c|]; [| done].
  destruct (bind_param (py_get s "title")); [| done].
  destruct (traverse bind_param (analysis_of s)); [| done].
  intros [= <-]. simpl. split; [done |]. by exists c.
Qed.

(** X17. For snapshots whose ids are strings or absent: after ingesting
    with preserve-ratings off, rating the id [song_id] with success, and
    ingesting the same file again with preserve-ratings on, the table
    still has a row with that id, every row with that id has the given
    rating, and every other row has rating 0. *)
Theorem rating_survives_reload fs path json_data song_id rating
    (t0 t1 t2 t3 : gmap Z row) n n' :
  fs path = Parsed json_data →
  (∀ s, s ∈ normalize_json json_data → text_or_none (py_get s "id")) →
  load_data fs path false t0 = (Ok n, t1) →
  rate_song song_id rating t1 = (Ok (song_id, rating), t2) →
  load_data fs path true t2 = (Ok n', t3) →
  (∃ k r, t3 !! k = Some r ∧ r_id r = Some song_id) ∧
  ∀ k r, t3 !! k = Some r →
    (r_id r = Some song_id → (r_star_rating r == rating)%Q) ∧
    (r_id r ≠ Some song_id → r_star_rating r = 0%Q).
Proof.
  intros Hfs Htext Hload1 Hrate Hload3.
  destruct (load_data_Ok _ _ _ _ _ _ Hload1)
    as (jd1 & Hfs1 & _ & _ & _ & Hsound1).
  rewrite Hfs in Hfs1. injection Hfs1 as <-.
  assert (∀ k r, t1 !! k = Some r → r_star_rating r = 0%Q) as Hzero.
  { intros k r Hk. destruct (Hsound1 k r Hk) as (s & q & _ & Hq & Hr).
    injection Hq as <-. by apply row_of_song_Ok in Hr as [-> _]. }
  apply rate_song_Ok_inv in Hrate as (Hrange & Hex & _ & ->).
  destruct (overlay_after_rating t1 song_id rating Hzero) as [Hov Hnone].
  specialize (Hnone Hex).
  destruct (load_data_Ok _ _ _ _ _ _ Hload3)
    as (jd3 & Hfs3 & _ & _ & Hcomplete3 & Hsound3).
  rewrite Hfs in Hfs3. injection Hfs3 as <-.
  split.
  - destruct Hex as (k & r & Hk & Hid).
    destruct (Hsound1 k r Hk) as (s & q & Hs & _ & Hr).
    destruct (Hcomplete3 s Hs) as (k' & q' & r' & Hk' & _ & Hr').
    exists k', r'. split; [done |].
    apply row_of_song_Ok in Hr as (_ & c & Hc & Hidr).
    apply row_of_song_Ok in Hr' as (_ & c' & Hc' & Hidr').
    congruence.
  - intros k r Hk. destruct (Hsound3 k r Hk) as (s & q & Hs & Hq & Hr).
    apply row_of_song_Ok in Hr as (-> & c & Hc & Hidr).
    specialize (Htext s Hs). unfold preserved_rating, overlay_get in Hq.
    destruct (py_get s "id") as [| | | |x|]; try done.
    + injection Hc as <-. simpl in Hidr. injection Hq as <-.
      fold (overlay true (rated rating song_id t1)).
      split; [by rewrite Hidr |]. intros _.
      destruct (overlay true _ !! None) as [q|] eqn:Hl; [| done].
      by destruct (Hov _ _ Hl).
    + injection Hc as <-. simpl in Hidr. injection Hq as <-.
      fold (overlay true (rated rating song_id t1)).
      rewrite Hidr. split.
      * intros [= ->].
        destruct (overlay true _ !! Some song_id) as [q|] eqn:Hl; simpl.
        -- destruct (Hov _ _ Hl) as [_ ->]. reflexivity.
        -- apply Qle_antisym; [tauto |].
           apply Qnot_lt_le. by apply Hnone.
      * intros Hne.
        destruct (overlay true _ !! Some x) as [q|] eqn:Hl; [| done].
        destruct (Hov _ _ Hl) as [Heq _]. by destruct Hne.
Qed.

End Reload.

Lemma rating_survives_reload_witness :
  let t1 := (@load_data example_engine example_fs "playlist.json" false
               one_song).2 in
  let t2 := (rate_song "a" (9 # 2) t1).2 in
  let t3 := (@load_data example_engine example_fs "playlist.json" true t2).2 in
  example_fs "playlist.json" = Parsed (Some two_songs) ∧
  (∀ s, s ∈ normalize_json (Some two_songs) → text_or_none (py_get s "id")) ∧
  @load_data example_engine example_fs "playlist.json" false one_song
    = (Ok 2%nat, t1) ∧
  rate_song "a" (9 # 2) t1 = (Ok ("a", 9 # 2), t2) ∧
  @load_data example_engine example_fs "playlist.json" true t2
    = (Ok 2%nat, t3) ∧
  (∃ k r, t3 !! k = Some r ∧ r_id r = Some "a") ∧
  ∀ k r, t3 !! k = Some r →
    (r_id r = Some "a" → (r_star_rating r == 9 # 2)%Q) ∧
    (r_id r ≠ Some "a" → r_star_rating r = 0%Q).
Proof.
  intros t1 t2 t3.
  assert (example_fs "playlist.json" = Parsed (Some two_songs)) as Hfs
    by reflexivity.
  assert (∀ s, s ∈ normalize_json (Some two_songs) →
               text_or_none (py_get s "id")) as Htext.
  { intros s Hs.
    assert (normalize_json (Some two_songs)
            = [build_song two_songs 0; build_song two_songs 1]) as Hn
      by reflexivity.
    rewrite Hn in Hs.
    apply elem_of_cons in Hs as [-> | Hs]; [by vm_compute |].
    apply elem_of_cons in Hs as [-> | Hs]; [by vm_compute |].
    by apply elem_of_nil in Hs. }
  assert (@load_data example_engine example_fs "playlist.json" false one_song
          = (Ok 2%nat, t1)) as Hload1 by (vm_compute; reflexivity).
  assert (rate_song "a" (9 # 2) t1 = (Ok ("a", 9 # 2), t2)) as Hrate
    by (vm_compute; reflexivity).
  assert (@load_data example_engine example_fs "playlist.json" true t2
          = (Ok 2%nat, t3)) as Hload3 by (vm_compute; reflexivity).
  split; [exact Hfs |]. split; [exact Htext |]. split; [exact Hload1 |].
  split; [exact Hrate |]. split; [exact Hload3 |].
  exact (@rating_survives_reload example_engine example_fs "playlist.json"
           (Some two_songs) "a" (9 # 2) one_song t1 t2 t3 2%nat 2%nat
           Hfs Htext Hload1 Hrate Hload3).
Defined.

(** C3, at the snapshot [{"id": {"0": 5}}], on every engine: ingesting it
    with preserve-ratings off, rating its one song, stored under the id
    [5], with 4.5, and ingesting it again with preserve-ratings on all
    succeed, and the song's rating ends as 0, not 4.5. The [TEXT] column
    keeps the number 5 as the text [5], under which the song is rated, but
    the reload looks the rating up under the number. *)
Theorem numeric_id_runs `{Engine} :
  ∃ t1 t2 t3 r,
    load_data example_fs "numeric.json" false ∅ = (Ok 1%nat, t1) ∧
    rate_song "5" (9 # 2) t1 = (Ok ("5", 9 # 2), t2) ∧
    load_data example_fs "numeric.json" true t2 = (Ok 1%nat, t3) ∧
    size t3 = 1%nat ∧
    t3 !! 0 = Some r ∧ r_id r = Some "5" ∧ r_star_rating r = 0%Q.
Proof.
  do 4 eexists.
  split; [vm_compute; reflexivity |]. split; [vm_compute; reflexivity |].
  split; [vm_compute; reflexivity |]. split; [vm_compute; reflexivity |].
  split; [vm_compute; reflexivity |].
  split; reflexivity.
Qed.

(** * Further properties *)

(** ** The records of [normalize_json] *)

Section Records.
Import PyDict PyDictFacts.

Lemma elem_of_keys {V} (d : t V) k : k ∈ keys d ↔ is_Some (lookup d k).
Proof.
  rewrite <- not_eq_None_Some, lookup_None.
  split; [by intros ? ? | apply dec_stable].
Qed.

Lemma lookup_set_is_Some {V} (d : t V) k v k' :
  is_Some (lookup (set d k v) k') ↔ k' = k ∨ is_Some (lookup d k').
Proof.
  destruct (decide (k = k')) as [->|Hne].
  - rewrite lookup_set_eq. split; [by left | by eexists].
  - rewrite lookup_set_ne by done. split; [by right |].
    by intros [-> | ?].
Qed.

Lemma set_wf {V} (d : t V) k v : wf d → wf (set d k v).
Proof.
  unfold wf. induction d as [|[k' v'] d IH]; simpl.
  - intros _. apply NoDup_singleton.
  - unfold keys in *. simpl. rewrite NoDup_cons. intros [Hk' Hnd].
    destruct (decide (k' = k)) as [->|Hne]; simpl.
    + by apply NoDup_cons.
    + apply NoDup_cons. split; [| by apply IH].
      intros Hin. apply (proj1 (elem_of_keys (set d k v) k')) in Hin.
      apply lookup_set_is_Some in Hin as [? | Hin]; [done |].
      apply Hk'. by apply (proj2 (elem_of_keys d k')).
Qed.

Lemma fill_song_wf (d : snapshot) i (s : song) :
  wf s → wf (fill_song d i s).
Proof.
  unfold fill_song. induction d as [|[a values] d IH] in s |- *; simpl;
    [done |].
  intros Hs. apply IH. by apply set_wf.
Qed.

Lemma fill_song_is_Some (d : snapshot) i (s : song) k :
  is_Some (lookup (fill_song d i s) k)
  ↔ k ∈ keys d ∨ is_Some (lookup s k).
Proof.
  unfold fill_song, keys.
  induction d as [|[a values] d IH] in s |- *; simpl.
  - split; [by right | intros [Hk | ?]; [by apply elem_of_nil in Hk | done]].
  - rewrite IH, lookup_set_is_Some, elem_of_cons. tauto.
Qed.

Lemma build_song_wf (d : snapshot) i : wf (build_song d i).
Proof.
  unfold build_song.
  assert (wf (fill_song d i [("index", PInt (Z.of_nat i))])) as Hwf.
  { apply fill_song_wf. apply NoDup_singleton. }
  destruct (mem _ "star_rating"); [done | by apply set_wf].
Qed.

Lemma build_song_is_Some (d : snapshot) i k :
  is_Some (lookup (build_song d i) k)
  ↔ k = "index" ∨ k = "star_rating" ∨ k ∈ keys d.
Proof.
  unfold build_song. destruct (mem _ "star_rating") eqn:Hmem.
  - apply mem_true in Hmem. rewrite fill_song_is_Some in Hmem |- *.
    simpl. split.
    + intros [Hk | Hk]; [by right; right |]. left.
      destruct (decide ("index" = k)); [done | by destruct Hk].
    + intros [-> | [-> | Hk]]; [right | done | by left].
      simpl. by eexists.
  - rewrite lookup_set_is_Some, fill_song_is_Some. simpl. split.
    + intros [-> | [Hk | Hk]]; [by right; left | by right; right |]. left.
      destruct (decide ("index" = k)); [done | by destruct Hk].
    + intros [-> | [-> | Hk]]; [right; right | by left | by right; left].
      simpl. by eexists.
Qed.

Lemma normalize_json_lookup_inv (d : snapshot) (i : nat) (s : song) :
  normalize_json (Some d) !! i = Some s →
  (i < song_count d)%nat ∧ s = build_song d i.
Proof.
  intros Hs.
  assert (i < song_count d)%nat as Hi.
  { apply lookup_lt_Some in Hs. by rewrite normalize_json_length in Hs. }
  split; [done |]. rewrite normalize_json_lookup in Hs by done. congruence.
Qed.

(** X1. Every record of [normalize_json] is a dictionary whose fields are
    exactly [index], [star_rating] and the attributes of the snapshot. *)
Theorem normalize_json_fields (d : snapshot) (i : nat) (s : song) :
  normalize_json (Some d) !! i = Some s →
  wf s ∧
  ∀ k, is_Some (lookup s k)
       ↔ k = "index" ∨ k = "star_rating" ∨ k ∈ keys d.
Proof.
  intros Hs. apply normalize_json_lookup_inv in Hs as [_ ->].
  split; [apply build_song_wf | apply build_song_is_Some].
Qed.

Lemma normalize_json_fields_witness :
  normalize_json (Some incomplete_json) !! 1%nat
    = Some (build_song incomplete_json 1) ∧
  wf (build_song incomplete_json 1) ∧
  (is_Some (lookup (build_song incomplete_json 1) "energy")
   ↔ "energy" = "index" ∨ "energy" = "star_rating"
     ∨ "energy" ∈ keys incomplete_json).
Proof.
  assert (normalize_json (Some incomplete_json) !! 1%nat
          = Some (build_song incomplete_json 1)) as Hs by reflexivity.
  split; [exact Hs |].
  destruct (normalize_json_fields incomplete_json 1 _ Hs) as [Hwf Hfields].
  split; [exact Hwf | apply Hfields].
Defined.

(** X2. A value the snapshot has for an attribute at a position is the value of
    that field in the record of that position. *)
Theorem normalize_json_copies_value (d : snapshot) (i : nat)
    (attr : string) (values : gmap string pyval) (v : pyval) :
  wf d → (i < song_count d)%nat →
  lookup d attr = Some values → values !! str i = Some v →
  ∃ s, normalize_json (Some d) !! i = Some s ∧ lookup s attr = Some v.
Proof.
  intros Hwf Hi Hattr Hv. exists (build_song d i).
  split; [by apply normalize_json_lookup |].
  rewrite (build_song_attr d i attr values Hwf Hattr).
  unfold values_get. by rewrite Hv.
Qed.

Lemma normalize_json_copies_value_witness :
  wf incomplete_json ∧ (1 < song_count incomplete_json)%nat ∧
  ∃ s, normalize_json (Some incomplete_json) !! 1%nat = Some s ∧
       lookup s "id" = Some (PStr "test2").
Proof.
  assert (wf incomplete_json) as Hwf.
  { apply (bool_decide_unpack _). by vm_compute. }
  assert (1 < song_count incomplete_json)%nat as Hlt by (vm_compute; lia).
  split; [exact Hwf |]. split; [exact Hlt |].
  apply (normalize_json_copies_value incomplete_json 1 "id"
           {[ "0" := PStr "test1"; "1" := PStr "test2" ]} _ Hwf Hlt);
    by vm_compute.
Defined.

End Records.

(** ** The songs the API returns *)

Section Returned.
Import PyDict PyDictFacts.

Lemma lookup_pop_eq {V} (d : t V) k : lookup (pop d k) k = None.
Proof.
  unfold pop, t in *. induction d as [|[k' v'] d IH]; [done |].
  rewrite filter_cons. simpl.
  destruct (decide (k' ≠ k)) as [Hne|]; [| exact IH].
  simpl. rewrite decide_False by done. exact IH.
Qed.

Lemma lookup_pop_ne {V} (d : t V) k k' :
  k' ≠ k → lookup (pop d k) k' = lookup d k'.
Proof.
  intros Hne. unfold pop, t in *. induction d as [|[k0 v0] d IH]; [done |].
  rewrite filter_cons. simpl. destruct (decide (k0 ≠ k)) as [Hk0|Hk0]; simpl.
  - destruct (decide (k0 = k')); [done | exact IH].
  - apply dec_stable in Hk0 as ->. rewrite decide_False by done. exact IH.
Qed.

Lemma lookup_app {V} (d1 d2 : t V) k :
  lookup (d1 ++ d2)%list k
  = match lookup d1 k with Some v => Some v | None => lookup d2 k end.
Proof.
  induction d1 as [|[k' v'] d1 IH]; simpl; [done |].
  by destruct (decide (k' = k)).
Qed.

Lemma lookup_zip_None {V} (names : list string) (l : list V) k :
  k ∉ names → lookup (zip names l) k = None.
Proof.
  induction names as [|a names IH] in l |- *; simpl; [done |].
  rewrite not_elem_of_cons. intros [Hne Hk]. destruct l as [|v l]; [done |].
  simpl. rewrite decide_False by done. by apply IH.
Qed.

Lemma song_of_row_other (kr : Z * row) k :
  k ≠ "index" → k ≠ "idx" →
  lookup (song_of_row kr) k = lookup (dict_of_row kr) k.
Proof.
  intros Hindex Hidx. unfold song_of_row.
  rewrite lookup_set_ne by done. by apply lookup_pop_ne.
Qed.

Lemma song_of_row_id (kr : Z * row) :
  lookup (song_of_row kr) "id" = Some (text_cell (r_id kr.2)).
Proof. by rewrite song_of_row_other. Qed.

Lemma song_of_row_star_rating (kr : Z * row) :
  lookup (song_of_row kr) "star_rating"
  = Some (SReal (r_star_rating kr.2)).
Proof.
  rewrite song_of_row_other by done. unfold dict_of_row.
  rewrite !lookup_app, lookup_zip_None; [done |].
  apply (bool_decide_unpack _). by vm_compute.
Qed.

(** X3. A song as [get_all_songs] and [search_by_title] return it has the key of
    its row as [index], no field [idx], and the [id], [title] and
    [star_rating] of the row. *)
Theorem song_of_row_fields (kr : Z * row) :
  lookup (song_of_row kr) "index" = Some (SInt kr.1) ∧
  lookup (song_of_row kr) "idx" = None ∧
  lookup (song_of_row kr) "id" = Some (text_cell (r_id kr.2)) ∧
  lookup (song_of_row kr) "title" = Some (text_cell (r_title kr.2)) ∧
  lookup (song_of_row kr) "star_rating"
    = Some (SReal (r_star_rating kr.2)).
Proof.
  split; [apply song_of_row_index |]. split.
  { unfold song_of_row. rewrite lookup_set_ne by done. apply lookup_pop_eq. }
  split; [apply song_of_row_id |].
  split; [| apply song_of_row_star_rating].
  by rewrite song_of_row_other.
Qed.

End Returned.

Lemma StronglySorted_filter {A} (R : relation A) (P : A → Prop)
    `{∀ x, Decision (P x)} (l : list A) :
  StronglySorted R l → StronglySorted R (filter P l).
Proof.
  induction 1 as [|a l Hl IH Hall]; [constructor |].
  rewrite filter_cons. destruct (decide (P a)); [| done].
  constructor; [done |]. rewrite Forall_forall in Hall |- *.
  intros b Hb. apply list_elem_of_filter in Hb as [_ Hb]. by apply Hall.
Qed.

(** X4. [search_by_title] answers with the stored songs whose title is exactly
    the given one, each once, by ascending [idx], and with no other song; a
    song without title is never among them. *)
Theorem search_by_title_spec (title : string) (t : gmap Z row) :
  ∃ rows, search_by_title title t = (Ok (song_of_row <$> rows), t) ∧
    StronglySorted idx_lt rows ∧
    ∀ k r, (k, r) ∈ rows ↔ t !! k = Some r ∧ r_title r = Some title.
Proof.
  exists (filter (fun kr : Z * row => r_title kr.2 = Some title) (scan t)).
  split; [reflexivity |]. split.
  - apply StronglySorted_filter, scan_sorted.
  - intros k r. rewrite list_elem_of_filter, elem_of_scan. simpl. tauto.
Qed.

(** ** Pages *)

(** X5. For [page >= 1] and [limit >= 1], limit and offset below [2^63],
    the song at position [m < limit] of a page is the one at position
    [(page-1)*limit + m] of the table in [idx] order, and the page has
    [limit] songs or as many as are left. *)
Theorem get_all_songs_positions (page limit : Z) (t : gmap Z row) (m : nat) :
  1 ≤ page → 1 ≤ limit < 2 ^ 63 → (page - 1) * limit < 2 ^ 63 →
  (m < Z.to_nat limit)%nat →
  let offset := Z.to_nat ((page - 1) * limit) in
  ∃ songs, get_all_songs page limit t = (Ok songs, t) ∧
    songs !! m = song_of_row <$> scan t !! (offset + m)%nat ∧
    length songs = (Z.to_nat limit `min` (size t - offset))%nat.
Proof.
  intros Hpage Hlimit Hoffset Hm offset. eexists.
  split; [by apply get_all_songs_run |]. split.
  - rewrite list_lookup_fmap, lookup_take_lt by done.
    by rewrite lookup_drop.
  - by rewrite length_fmap, length_take, length_drop, length_scan.
Qed.

Lemma get_all_songs_positions_witness :
  1 ≤ 1 ∧ 1 ≤ 1 < 2 ^ 63 ∧ (1 - 1) * 1 < 2 ^ 63 ∧ (0 < Z.to_nat 1)%nat ∧
  ∃ songs, get_all_songs 1 1 twins = (Ok songs, twins) ∧
    songs !! 0%nat = song_of_row <$> scan twins !! 0%nat ∧
    length songs = 1%nat.
Proof.
  split; [lia |]. split; [lia |]. split; [lia |].
  split; [vm_compute; lia |].
  destruct (get_all_songs_positions 1 1 twins 0)
    as (songs & Hrun & Hpos & Hlen); [lia | lia | lia | vm_compute; lia |].
  exists songs. split; [exact Hrun |]. split; [exact Hpos |].
  rewrite Hlen. unfold twins.
  rewrite map_size_insert_None, map_size_singleton by done. reflexivity.
Defined.

(** X6. Every stored song is on a page: for a limit and a position below
    [2^63], the song at position [j] of the table in [idx] order is at
    position [j mod limit] of page [j / limit + 1]. *)
Theorem get_all_songs_covers (limit : Z) (t : gmap Z row) (j : nat)
    (kr : Z * row) :
  1 ≤ limit < 2 ^ 63 → Z.of_nat j < 2 ^ 63 → scan t !! j = Some kr →
  ∃ songs,
    get_all_songs (Z.of_nat j / limit + 1) limit t = (Ok songs, t) ∧
    songs !! Z.to_nat (Z.of_nat j mod limit) = Some (song_of_row kr).
Proof.
  intros Hlimit Hbound Hj.
  assert (0 ≤ Z.of_nat j / limit) as Hdiv by (apply Z.div_pos; lia).
  assert (0 ≤ Z.of_nat j mod limit < limit) as Hmod
    by (apply Z.mod_pos_bound; lia).
  pose proof (Z.div_mod (Z.of_nat j) limit ltac:(lia)) as Hdm.
  rewrite get_all_songs_run by nia. eexists. split; [reflexivity |].
  rewrite list_lookup_fmap, lookup_take_lt, lookup_drop by lia.
  replace (Z.to_nat ((Z.of_nat j / limit + 1 - 1) * limit)
           + Z.to_nat (Z.of_nat j mod limit))%nat with j.
  { by rewrite Hj. }
  nia.
Qed.

Lemma get_all_songs_covers_witness :
  1 ≤ 1 < 2 ^ 63 ∧ Z.of_nat 1 < 2 ^ 63 ∧
  scan twins !! 1%nat = Some (1, set_rating 4 song_a) ∧
  ∃ songs, get_all_songs 2 1 twins = (Ok songs, twins) ∧
           songs !! 0%nat = Some (song_of_row (1, set_rating 4 song_a)).
Proof.
  assert (scan twins !! 1%nat = Some (1, set_rating 4 song_a)) as Hj
    by by vm_compute.
  split; [lia |]. split; [lia |]. split; [exact Hj |].
  apply (get_all_songs_covers 1 twins 1 _ ltac:(lia) ltac:(lia) Hj).
Defined.

(** ** Ratings, one after another *)

Lemma rated_rated (q1 q2 : Q) (song_id : string) (t : gmap Z row) :
  rated q2 song_id (rated q1 song_id t) = rated q2 song_id t.
Proof.
  unfold rated. rewrite <- map_fmap_compose. apply map_fmap_ext.
  intros k r _. unfold compose.
  destruct (decide (has_id song_id r)) as [Hid|Hid].
  - rewrite decide_True; [done | exact Hid].
  - rewrite decide_False; [done | exact Hid].
Qed.

Lemma rated_comm (qa qb : Q) (a b : string) (t : gmap Z row) :
  a ≠ b → rated qa a (rated qb b t) = rated qb b (rated qa a t).
Proof.
  intros Hne. unfold rated. rewrite <- !map_fmap_compose.
  apply map_fmap_ext. intros k r _. unfold compose.
  repeat case_decide; unfold has_id in *; simpl in *; congruence.
Qed.

Lemma rated_has_id (q : Q) (a song_id : string) (t : gmap Z row) :
  (∃ k r, rated q a t !! k = Some r ∧ r_id r = Some song_id)
  ↔ (∃ k r, t !! k = Some r ∧ r_id r = Some song_id).
Proof.
  unfold rated. split.
  - intros (k & r & Hk & Hid). rewrite lookup_fmap in Hk.
    destruct (t !! k) as [r0|] eqn:Hk0; [| done]. simpl in Hk.
    injection Hk as <-. exists k, r0. split; [done |].
    by destruct (decide (has_id a r0)).
  - intros (k & r & Hk & Hid). eexists k, _. rewrite lookup_fmap, Hk.
    split; [reflexivity |]. by destruct (decide (has_id a r)).
Qed.

(** X7. Rating a song that has just been rated gives the reply and the table
    that rating it directly would have given: the last rating wins. *)
Theorem rate_song_twice (song_id : string) (q1 q2 : Q)
    (t t1 : gmap Z row) :
  rate_song song_id q1 t = (Ok (song_id, q1), t1) →
  (0 <= q2 ∧ q2 <= 5)%Q →
  rate_song song_id q2 t1 = rate_song song_id q2 t ∧
  ∃ t2, rate_song song_id q2 t = (Ok (song_id, q2), t2).
Proof.
  intros Hfirst Hq2.
  apply rate_song_Ok_inv in Hfirst as (_ & Hex & _ & ->).
  rewrite (rate_song_found song_id q2 t) by done.
  rewrite rate_song_found; [| done | by apply rated_has_id].
  rewrite rated_rated. split; [done | by eexists].
Qed.

Lemma rate_song_twice_witness :
  rate_song "a" 3 one_song = (Ok ("a", 3%Q), rated 3 "a" one_song) ∧
  (0 <= 4 ∧ 4 <= 5)%Q ∧
  rate_song "a" 4 (rated 3 "a" one_song) = rate_song "a" 4 one_song.
Proof.
  assert (rate_song "a" 3 one_song = (Ok ("a", 3%Q), rated 3 "a" one_song))
    as Hfirst by (vm_compute; reflexivity).
  assert (0 <= 4 ∧ 4 <= 5)%Q as Hq by (split; by vm_compute).
  split; [exact Hfirst |]. split; [exact Hq |].
  apply (rate_song_twice "a" 3 4 one_song _ Hfirst Hq).
Defined.

(** X8. Ratings of two different ids can be given in either order: the other
    order succeeds as well and ends in the same table. *)
Theorem rate_song_commute (a b : string) (qa qb : Q)
    (t ta tab : gmap Z row) :
  a ≠ b →
  rate_song a qa t = (Ok (a, qa), ta) →
  rate_song b qb ta = (Ok (b, qb), tab) →
  ∃ tb, rate_song b qb t = (Ok (b, qb), tb) ∧
        rate_song a qa tb = (Ok (a, qa), tab).
Proof.
  intros Hne Ha Hb.
  apply rate_song_Ok_inv in Ha as (Hqa & Hexa & _ & ->).
  apply rate_song_Ok_inv in Hb as (Hqb & Hexb & _ & ->).
  apply rated_has_id in Hexb.
  exists (rated qb b t). split; [by apply rate_song_found |].
  rewrite rate_song_found; [| done | by apply rated_has_id].
  by rewrite rated_comm.
Qed.

Lemma rate_song_commute_witness :
  let t := (@load_data example_engine example_fs "playlist.json" false ∅).2 in
  "a" ≠ "b" ∧
  ∃ tb, rate_song "b" 2 t = (Ok ("b", 2%Q), tb) ∧
        rate_song "a" 3 tb = (Ok ("a", 3%Q), rated 2 "b" (rated 3 "a" t)).
Proof.
  intros t. split; [done |].
  apply (rate_song_commute "a" "b" 3 2 t (rated 3 "a" t)); [done | |];
    vm_compute; reflexivity.
Defined.

Lemma get_all_songs_rows (page limit : Z) (t t' : gmap Z row) songs :
  get_all_songs page limit t = (Ok songs, t') →
  ∃ rows, songs = song_of_row <$> rows ∧ rows ⊆ scan t.
Proof.
  destruct (decide ((- 2 ^ 63 ≤ limit < 2 ^ 63)
                    ∧ (- 2 ^ 63 ≤ (page - 1) * limit < 2 ^ 63)))
    as [[Hlimit Hoffset] | Hout].
  - destruct (get_all_songs_answers page limit t Hlimit Hoffset)
      as (rows & -> & Hsub).
    intros [= <- _]. by exists rows.
  - by rewrite get_all_songs_refused.
Qed.

Lemma search_by_title_rows (title : string) (t : gmap Z row) :
  ∃ rows, search_by_title title t = (Ok (song_of_row <$> rows), t) ∧
          rows ⊆ scan t.
Proof.
  eexists. split; [reflexivity |]. simpl.
  intros kr Hkr. by apply list_elem_of_filter in Hkr as [_ ?].
Qed.

(** X9. Once a rating has been accepted, every song with that id that
    [get_all_songs] or [search_by_title] returns carries it. *)
Theorem rating_is_returned (song_id : string) (rating : Q)
    (t t2 : gmap Z row) (page limit : Z) (title : string) :
  rate_song song_id rating t = (Ok (song_id, rating), t2) →
  ∀ songs s,
    get_all_songs page limit t2 = (Ok songs, t2)
    ∨ search_by_title title t2 = (Ok songs, t2) →
    s ∈ songs →
    PyDict.lookup s "id" = Some (SText song_id) →
    PyDict.lookup s "star_rating" = Some (SReal rating).
Proof.
  intros Hrate songs s Hread Hs Hid.
  apply rate_song_Ok_inv in Hrate as (_ & _ & _ & ->).
  assert (∃ rows, songs = song_of_row <$> rows
                  ∧ rows ⊆ scan (rated rating song_id t))
    as (rows & -> & Hrows).
  { destruct Hread as [Hread | Hread].
    - by apply get_all_songs_rows in Hread.
    - destruct (search_by_title_rows title (rated rating song_id t))
        as (rows & Hrun & Hsub).
      exists rows. split; [congruence | done]. }
  apply list_elem_of_fmap in Hs as ([k r] & -> & Hkr).
  apply Hrows, elem_of_scan in Hkr.
  rewrite song_of_row_id in Hid. rewrite song_of_row_star_rating.
  simpl in *.
  unfold rated in Hkr. rewrite lookup_fmap in Hkr.
  destruct (t !! k) as [r0|]; [| done]. simpl in Hkr. injection Hkr as <-.
  destruct (decide (has_id song_id r0)) as [|Hno]; [done |].
  destruct Hno. unfold has_id. destruct (r_id r0); simpl in Hid; congruence.
Qed.

Lemma rating_is_returned_witness :
  rate_song "a" 3 one_song = (Ok ("a", 3%Q), rated 3 "a" one_song) ∧
  ∃ s, (search_by_title "X" (rated 3 "a" one_song)).1 = Ok [s] ∧
       PyDict.lookup s "id" = Some (SText "a") ∧
       PyDict.lookup s "star_rating" = Some (SReal 3).
Proof.
  assert (rate_song "a" 3 one_song = (Ok ("a", 3%Q), rated 3 "a" one_song))
    as Hrate by (vm_compute; reflexivity).
  split; [exact Hrate |].
  exists (song_of_row (0, set_rating 3 song_a)).
  assert (PyDict.lookup (song_of_row (0, set_rating 3 song_a)) "id"
          = Some (SText "a")) as Hid by reflexivity.
  split; [by vm_compute |]. split; [exact Hid |].
  apply (rating_is_returned "a" 3 one_song _ 1 20 "X" Hrate
           [song_of_row (0, set_rating 3 song_a)]);
    [right; vm_compute; reflexivity | apply list_elem_of_here | exact Hid].
Defined.

(** ** What a reload writes *)

Section Reloads.
Context `{Engine}.

Lemma insert_song_pending p ov (s : song) (a b pd : gmap Z row) :
  insert_song p ov s {| committed := a; pending := pd |}
  = let '(res, c') :=
      insert_song p ov s {| committed := b; pending := pd |} in
    (res, {| committed := a; pending := pending c' |}).
Proof.
  unfold insert_song, mbind, db_bind, lift, execute_insert. simpl.
  destruct (preserved_rating p ov s) as [q|]; [| done].
  by destruct (insert_row _ _ _ _ _ _).
Qed.

Lemma for_each_insert_pending p ov (songs : list song)
    (a b pd : gmap Z row) :
  for_each songs (insert_song p ov) {| committed := a; pending := pd |}
  = let '(res, c') :=
      for_each songs (insert_song p ov)
               {| committed := b; pending := pd |} in
    (res, {| committed := a; pending := pending c' |}).
Proof.
  induction songs as [|s songs IH] in b, pd |- *; simpl; [done |].
  unfold mbind, db_bind.
  rewrite (insert_song_pending p ov s a b pd).
  destruct (insert_song p ov s {| committed := b; pending := pd |})
    as [[[]|e] [cb pd1]]; simpl; [| done].
  apply IH.
Qed.

Lemma load_data_zero_ratings fs path (t t1 : gmap Z row) n :
  load_data fs path false t = (Ok n, t1) →
  ∀ k r, t1 !! k = Some r → r_star_rating r = 0%Q.
Proof.
  intros Hload k r Hk.
  destruct (load_data_Ok _ _ _ _ _ _ Hload) as (jd & _ & _ & _ & _ & Hsound).
  destruct (Hsound k r Hk) as (s & q & _ & Hq & Hr).
  injection Hq as <-. by apply row_of_song_Ok in Hr as [-> _].
Qed.

End Reloads.

(** ** The keys of the rows *)

Lemma normalize_json_Some (d : snapshot) :
  normalize_json (Some d) = build_song d <$> seq 0 (song_count d).
Proof. by destruct d. Qed.

Section Keys.
Context `{Engine}.

Lemma insert_song_key p ov (s : song) (c c' : conn) (z : Z) :
  insert_song p ov s c = (Ok (), c') → py_get s "index" = PInt z →
  ∃ q r, preserved_rating p ov s = Ok q ∧ row_of_song s q = Ok r ∧
         pending c !! z = None ∧ pending c' = <[z := r]> (pending c).
Proof.
  unfold insert_song, mbind, db_bind, lift, execute_insert.
  destruct (preserved_rating p ov s) as [q|]; [| done].
  destruct (insert_row _ _ _ _ _ _) as [t'|] eqn:Hins; [| done].
  intros [= <-] Hidx. simpl. rewrite Hidx in Hins.
  unfold insert_row, mbind, result_bind in Hins. simpl in Hins.
  destruct (decide (- 2 ^ 63 ≤ z < 2 ^ 63)); simpl in Hins; [| done].
  change (build_row _ _ _ q) with (row_of_song s q) in Hins.
  destruct (row_of_song s q) as [r|] eqn:Hr; simpl in Hins; [| done].
  destruct (decide (is_Some (pending c !! z))) as [|Hfree]; [done |].
  injection Hins as <-. exists q, r.
  by apply eq_None_not_Some in Hfree.
Qed.

Lemma for_each_insert_keys p ov (d : snapshot) (a n : nat) (c c' : conn) :
  PyDict.lookup d "index" = None →
  for_each (build_song d <$> seq a n) (insert_song p ov) c = (Ok (), c') →
  (∀ i, (a ≤ i < a + n)%nat →
     ∃ q r, preserved_rating p ov (build_song d i) = Ok q ∧
            row_of_song (build_song d i) q = Ok r ∧
            pending c' !! Z.of_nat i = Some r) ∧
  (∀ k, (∀ i, (a ≤ i < a + n)%nat → k ≠ Z.of_nat i) →
     pending c' !! k = pending c !! k).
Proof.
  intros Hindex. induction n as [|n IH] in a, c |- *; simpl.
  - intros [= <-]. split; [intros i Hi; lia | done].
  - unfold mbind at 1, db_bind at 1.
    destruct (insert_song p ov (build_song d a) c) as [[[]|e] c1] eqn:Hone;
      [| done].
    intros Hrest. apply IH in Hrest as [Hin Hout].
    apply (insert_song_key _ _ _ _ _ (Z.of_nat a)) in Hone
      as (q & r & Hq & Hr & Hfree & Hc1).
    2:{ unfold py_get. by rewrite build_song_index. }
    split.
    + intros i Hi. destruct (decide (i = a)) as [->|Hne].
      * exists q, r. split; [done |]. split; [done |].
        rewrite Hout by (intros i Hi'; lia).
        rewrite Hc1. apply lookup_insert_eq.
      * apply Hin. lia.
    + intros k Hk. rewrite Hout by (intros i Hi; apply Hk; lia).
      rewrite Hc1. apply lookup_insert_ne.
      intros Heq. apply (Hk a); [lia | done].
Qed.

Lemma load_data_rows fs path p (d : snapshot) (t t' : gmap Z row) n :
  fs path = Parsed (Some d) → PyDict.lookup d "index" = None →
  load_data fs path p t = (Ok n, t') →
  n = song_count d ∧
  (∀ i, (i < n)%nat →
     ∃ q r, preserved_rating p (overlay p t) (build_song d i) = Ok q ∧
            row_of_song (build_song d i) q = Ok r ∧
            t' !! Z.of_nat i = Some r) ∧
  (∀ k, (∀ i, (i < n)%nat → k ≠ Z.of_nat i) → t' !! k = None).
Proof.
  intros Hfs Hindex Hload.
  rewrite (load_data_Parsed _ _ _ _ _ Hfs) in Hload.
  rewrite normalize_json_Some, length_fmap, length_seq in Hload.
  destruct (for_each _ _ _) as [[[]|e] c] eqn:Hloop; [| done].
  injection Hload as <- <-.
  apply for_each_insert_keys in Hloop as [Hin Hout]; [| done].
  simpl in Hin, Hout. split; [done |]. split.
  - intros i Hi. apply Hin. lia.
  - intros k Hk. rewrite Hout; [apply lookup_empty |].
    intros i Hi. apply Hk. lia.
Qed.

(** X11. When the snapshot has no attribute called [index], a successful reload
    stores record [i] under the key [i], so that the keys in use are
    exactly the positions [0..N-1] of the snapshot. *)
Theorem load_data_keys fs path p (d : snapshot) (t t' : gmap Z row) n :
  fs path = Parsed (Some d) → PyDict.lookup d "index" = None →
  load_data fs path p t = (Ok n, t') →
  n = song_count d ∧
  (∀ k, is_Some (t' !! k) ↔ 0 ≤ k < Z.of_nat n) ∧
  ∀ i, (i < n)%nat →
    ∃ q r, t' !! Z.of_nat i = Some r ∧
           preserved_rating p (overlay p t) (build_song d i) = Ok q ∧
           row_of_song (build_song d i) q = Ok r.
Proof.
  intros Hfs Hindex Hload.
  destruct (load_data_rows _ _ _ _ _ _ _ Hfs Hindex Hload)
    as (Hn & Hin & Hout).
  split; [done |]. split.
  - intros k. split.
    + intros Hk. destruct (decide (0 ≤ k < Z.of_nat n)); [done |].
      rewrite Hout in Hk; [by destruct Hk |]. intros i Hi. lia.
    + intros Hk. destruct (Hin (Z.to_nat k)) as (q & r & _ & _ & Hr);
        [lia |].
      rewrite Z2Nat.id in Hr by lia. by eexists.
  - intros i Hi. destruct (Hin i Hi) as (q & r & Hq & Hr & Hk).
    by exists q, r.
Qed.

End Keys.

Lemma load_data_keys_witness :
  let t' := (@load_data example_engine example_fs "playlist.json" true
               twins).2 in
  example_fs "playlist.json" = Parsed (Some two_songs) ∧
  PyDict.lookup two_songs "index" = None ∧
  @load_data example_engine example_fs "playlist.json" true twins
    = (Ok 2%nat, t') ∧
  ∀ k, is_Some (t' !! k) ↔ 0 ≤ k < 2.
Proof.
  intros t'.
  assert (@load_data example_engine example_fs "playlist.json" true twins
          = (Ok 2%nat, t')) as Hload by (vm_compute; reflexivity).
  split; [reflexivity |]. split; [reflexivity |]. split; [exact Hload |].
  apply (@load_data_keys example_engine example_fs "playlist.json" true
           two_songs twins t' 2 eq_refl eq_refl Hload).
Defined.

Section Replacement.
Context `{Engine}.

Lemma insert_song_pick pick p ov (s : song) (c : conn) (z : Z) :
  py_get s "index" = PInt z →
  @insert_song (with_unused_rowid _ pick) p ov s c = insert_song p ov s c.
Proof.
  intros Hidx. unfold insert_song, mbind, db_bind, lift, execute_insert.
  destruct (preserved_rating p ov s) as [q|]; [| done].
  unfold insert_row. rewrite Hidx. unfold mbind, result_bind. simpl.
  by destruct (decide (- 2 ^ 63 ≤ z < 2 ^ 63)).
Qed.

Lemma for_each_insert_pick pick p ov (d : snapshot) (a n : nat) (c : conn) :
  PyDict.lookup d "index" = None →
  for_each (build_song d <$> seq a n)
           (@insert_song (with_unused_rowid _ pick) p ov) c
  = for_each (build_song d <$> seq a n) (insert_song p ov) c.
Proof.
  intros Hindex. induction n as [|n IH] in a, c |- *; simpl; [done |].
  unfold mbind, db_bind.
  rewrite (insert_song_pick pick p ov _ c (Z.of_nat a)).
  2:{ unfold py_get. by rewrite build_song_index. }
  destruct (insert_song p ov (build_song d a) c) as [[[]|e] c1]; [| done].
  apply IH.
Qed.

(** X10. A reload that does not preserve ratings is a full replacement: for a
    snapshot that has no attribute called [index], when it succeeds it
    succeeds on every table, whatever keys the engine would pick at random,
    with the same count and the same resulting table, in which every
    rating is 0. *)
Theorem load_data_replaces fs path (d : snapshot) (t t1 : gmap Z row) n :
  fs path = Parsed (Some d) → PyDict.lookup d "index" = None →
  load_data fs path false t = (Ok n, t1) →
  (∀ pick t',
     @load_data (with_unused_rowid _ pick) fs path false t' = (Ok n, t1)) ∧
  ∀ k r, t1 !! k = Some r → r_star_rating r = 0%Q.
Proof.
  intros Hfs Hindex Hload. split; [| by eapply load_data_zero_ratings].
  intros pick t'.
  rewrite (load_data_Parsed fs path false t _ Hfs) in Hload.
  rewrite (@load_data_Parsed (with_unused_rowid _ pick) fs path false t' _
             Hfs).
  rewrite normalize_json_Some in Hload |- *. simpl in *.
  rewrite for_each_insert_pick by done.
  rewrite (for_each_insert_pending false ∅ _ t' t ∅).
  destruct (for_each _ _ _) as [[[]|e] c]; [| done].
  by injection Hload as <- <-.
Qed.

End Replacement.

Lemma load_data_replaces_witness :
  let t1 := (@load_data example_engine example_fs "playlist.json" false
               one_song).2 in
  example_fs "playlist.json" = Parsed (Some two_songs) ∧
  PyDict.lookup two_songs "index" = None ∧
  @load_data example_engine example_fs "playlist.json" false one_song
    = (Ok 2%nat, t1) ∧
  @load_data (with_unused_rowid example_engine (fun _ => Some 7))
     example_fs "playlist.json" false twins = (Ok 2%nat, t1) ∧
  ∀ k r, t1 !! k = Some r → r_star_rating r = 0%Q.
Proof.
  intros t1.
  assert (@load_data example_engine example_fs "playlist.json" false one_song
          = (Ok 2%nat, t1)) as Hload by (vm_compute; reflexivity).
  split; [reflexivity |]. split; [reflexivity |]. split; [exact Hload |].
  destruct (@load_data_replaces example_engine example_fs "playlist.json"
              two_songs one_song t1 2 eq_refl eq_refl Hload)
    as [Hany Hzero].
  split; [apply Hany | exact Hzero].
Defined.

Lemma sorted_keys_gap (l : list (Z * row)) (i j : nat) (a b : Z * row) :
  StronglySorted idx_lt l → l !! i = Some a → l !! j = Some b →
  (i ≤ j)%nat → a.1 + Z.of_nat (j - i) ≤ b.1.
Proof.
  induction 1 as [|x l Hl IH Hall] in i, j, a, b |- *; [done |].
  destruct i as [|i], j as [|j]; simpl; intros Ha Hb Hij.
  - injection Ha as <-. injection Hb as <-. lia.
  - injection Ha as <-.
    destruct (l !! 0%nat) as [y|] eqn:Hy.
    + pose proof (IH 0%nat j y b Hy Hb ltac:(lia)) as Hgap.
      rewrite Forall_forall in Hall.
      pose proof (Hall y (list_elem_of_lookup_2 _ _ _ Hy)) as Hxy.
      unfold idx_lt in Hxy. lia.
    + apply lookup_ge_None in Hy. apply lookup_lt_Some in Hb. lia.
  - lia.
  - apply (IH i j a b Ha Hb). lia.
Qed.

Lemma scan_dense (t : gmap Z row) (n j : nat) (k : Z) (r : row) :
  size t = n → (∀ k, is_Some (t !! k) ↔ 0 ≤ k < Z.of_nat n) →
  scan t !! j = Some (k, r) → k = Z.of_nat j.
Proof.
  intros Hsize Hdom Hj.
  pose proof (lookup_lt_Some _ _ _ Hj) as Hlt.
  rewrite length_scan, Hsize in Hlt.
  destruct (lookup_lt_is_Some_2 (scan t) 0) as [[k0 r0] H0];
    [rewrite length_scan; lia |].
  destruct (lookup_lt_is_Some_2 (scan t) (n - 1)) as [[k1 r1] H1];
    [rewrite length_scan; lia |].
  pose proof (sorted_keys_gap _ _ _ _ _ (scan_sorted t) H0 Hj ltac:(lia))
    as Hlow.
  pose proof (sorted_keys_gap _ _ _ _ _ (scan_sorted t) Hj H1 ltac:(lia))
    as Hhigh.
  assert (0 ≤ k0) as Hk0.
  { apply list_elem_of_lookup_2, elem_of_scan in H0.
    apply (Hdom k0). by eexists. }
  assert (k1 < Z.of_nat n) as Hk1.
  { apply list_elem_of_lookup_2, elem_of_scan in H1.
    apply (Hdom k1). by eexists. }
  simpl in *. lia.
Qed.

Section ReloadThenRead.
Context `{Engine}.

(** X12. After a successful reload of a snapshot that has no attribute called
    [index], [get_all_songs] returns the records in the order of the
    snapshot: for a limit and an offset below [2^63], position [m] of a
    page holds the row written for record [(page-1)*limit + m], with that
    number as its [index]. *)
Theorem load_data_then_get_all_songs fs path p (d : snapshot)
    (t t' : gmap Z row) n (page limit : Z) (m : nat) :
  fs path = Parsed (Some d) → PyDict.lookup d "index" = None →
  load_data fs path p t = (Ok n, t') →
  1 ≤ page → 1 ≤ limit < 2 ^ 63 → (page - 1) * limit < 2 ^ 63 →
  (m < Z.to_nat limit)%nat →
  let j := (Z.to_nat ((page - 1) * limit) + m)%nat in
  (j < n)%nat →
  ∃ songs q r,
    get_all_songs page limit t' = (Ok songs, t') ∧
    songs !! m = Some (song_of_row (Z.of_nat j, r)) ∧
    preserved_rating p (overlay p t) (build_song d j) = Ok q ∧
    row_of_song (build_song d j) q = Ok r.
Proof.
  intros Hfs Hindex Hload Hpage Hlimit Hoffset Hm j Hj.
  destruct (load_data_Ok _ _ _ _ _ _ Hload) as (jd & _ & Hn & Hsize & _).
  destruct (load_data_rows _ _ _ _ _ _ _ Hfs Hindex Hload)
    as (_ & Hin & Hout).
  assert (∀ k, is_Some (t' !! k) ↔ 0 ≤ k < Z.of_nat n) as Hdom.
  { intros k. split.
    - intros Hk. destruct (decide (0 ≤ k < Z.of_nat n)); [done |].
      rewrite Hout in Hk; [by destruct Hk |]. intros i Hi. lia.
    - intros Hk. destruct (Hin (Z.to_nat k)) as (q & r & _ & _ & Hr);
        [lia |].
      rewrite Z2Nat.id in Hr by lia. by eexists. }
  destruct (Hin j Hj) as (q & r & Hq & Hr & Hk).
  rewrite get_all_songs_run by done. eexists _, q, r.
  split; [reflexivity |]. split; [| done].
  rewrite list_lookup_fmap, lookup_take_lt, lookup_drop by done. fold j.
  destruct (lookup_lt_is_Some_2 (scan t') j) as [[k' r'] Hscan].
  { rewrite length_scan. lia. }
  rewrite Hscan. simpl.
  assert (k' = Z.of_nat j) as ->.
  { eapply (scan_dense t' n); [lia | done | done]. }
  apply list_elem_of_lookup_2, elem_of_scan in Hscan. congruence.
Qed.

End ReloadThenRead.

Lemma load_data_then_get_all_songs_witness :
  let t' := (@load_data example_engine example_fs "playlist.json" true
               twins).2 in
  @load_data example_engine example_fs "playlist.json" true twins
    = (Ok 2%nat, t') ∧
  ∃ songs q r,
    get_all_songs 2 1 t' = (Ok songs, t') ∧
    songs !! 0%nat = Some (song_of_row (1, r)) ∧
    preserved_rating true (overlay true twins) (build_song two_songs 1)
      = Ok q ∧
    @row_of_song example_engine (build_song two_songs 1) q = Ok r.
Proof.
  intros t'.
  assert (@load_data example_engine example_fs "playlist.json" true twins
          = (Ok 2%nat, t')) as Hload by (vm_compute; reflexivity).
  split; [exact Hload |].
  apply (@load_data_then_get_all_songs example_engine example_fs
           "playlist.json" true two_songs twins t' 2 2 1 0
           eq_refl eq_refl Hload); [lia | lia | lia | vm_compute; lia |].
  vm_compute. lia.
Defined.

(** ** Ratings a reload carries over *)

Section Carried.
Context `{Engine}.

Lemma overlay_Some (t : gmap Z row) (id : option string) (q : Q) :
  overlay true t !! id = Some q →
  ∃ k r, t !! k = Some r ∧ r_id r = id ∧ r_star_rating r = q ∧ (0 < q)%Q.
Proof.
  unfold overlay. intros Hov. apply dict_of_rated_elem_of in Hov.
  by apply elem_of_select_rated.
Qed.

Lemma overlay_is_Some (t : gmap Z row) (id : option string) k r :
  t !! k = Some r → r_id r = id → (0 < r_star_rating r)%Q →
  is_Some (overlay true t !! id).
Proof.
  intros Hk Hid Hpos. unfold overlay. apply dict_of_rated_is_Some.
  apply list_elem_of_fmap. exists (id, r_star_rating r).
  split; [done |]. apply elem_of_select_rated. by exists k, r.
Qed.

(** X13. A reload that preserves ratings invents none: every row it writes is
    rated 0 or has the positive rating that some row with the same id had
    in the table it replaces. *)
Theorem load_data_rating_origin fs path (t t' : gmap Z row) n :
  load_data fs path true t = (Ok n, t') →
  ∀ k r, t' !! k = Some r →
    r_star_rating r = 0%Q ∨
    ∃ k0 r0, t !! k0 = Some r0 ∧ r_id r0 = r_id r ∧
             r_star_rating r0 = r_star_rating r ∧ (0 < r_star_rating r)%Q.
Proof.
  intros Hload k r Hk.
  destruct (load_data_Ok _ _ _ _ _ _ Hload) as (jd & _ & _ & _ & _ & Hsound).
  destruct (Hsound k r Hk) as (s & q & _ & Hq & Hr).
  apply row_of_song_Ok in Hr as (-> & c & Hc & Hidr).
  unfold preserved_rating, overlay_get in Hq.
  destruct (py_get s "id") as [| | | |x|]; try done;
    try (injection Hq as <-; by left).
  - injection Hc as <-. injection Hq as <-.
    fold (overlay true t).
    destruct (overlay true t !! None) as [q|] eqn:Hov; [| by left].
    right. apply overlay_Some in Hov as (k0 & r0 & Hk0 & Hid0 & Hq0 & Hpos).
    exists k0, r0. simpl in *. by rewrite Hidr, Hid0.
  - injection Hc as <-. injection Hq as <-.
    fold (overlay true t).
    destruct (overlay true t !! Some x) as [q|] eqn:Hov; [| by left].
    right. apply overlay_Some in Hov as (k0 & r0 & Hk0 & Hid0 & Hq0 & Hpos).
    exists k0, r0. simpl in *. by rewrite Hidr, Hid0.
Qed.

(** X14. A reload that preserves ratings keeps rated songs rated: when the ids
    of the snapshot are strings or absent, a row written with an id that
    had a positive rating in the table it replaces has the positive rating
    of a row with that id in that table. *)
Theorem load_data_keeps_rated fs path json_data (t t' : gmap Z row) n :
  fs path = Parsed json_data →
  (∀ s, s ∈ normalize_json json_data → text_or_none (py_get s "id")) →
  load_data fs path true t = (Ok n, t') →
  ∀ k r x, t' !! k = Some r → r_id r = Some x →
    (∃ k0 r0, t !! k0 = Some r0 ∧ r_id r0 = Some x
              ∧ (0 < r_star_rating r0)%Q) →
    (0 < r_star_rating r)%Q ∧
    ∃ k1 r1, t !! k1 = Some r1 ∧ r_id r1 = Some x ∧
             r_star_rating r1 = r_star_rating r.
Proof.
  intros Hfs Htext Hload k r x Hk Hid (k0 & r0 & Hk0 & Hid0 & Hpos0).
  destruct (load_data_Ok _ _ _ _ _ _ Hload)
    as (jd & Hfs' & _ & _ & _ & Hsound).
  rewrite Hfs in Hfs'. injection Hfs' as <-.
  destruct (Hsound k r Hk) as (s & q & Hs & Hq & Hr).
  apply row_of_song_Ok in Hr as (-> & c & Hc & Hidr).
  specialize (Htext s Hs). unfold preserved_rating, overlay_get in Hq.
  destruct (py_get s "id") as [| | | |y|]; try done.
  - injection Hc as <-. simpl in Hidr. congruence.
  - injection Hc as <-. simpl in Hidr. injection Hq as <-.
    fold (overlay true t).
    assert (y = x) as -> by congruence.
    destruct (overlay_is_Some t (Some x) k0 r0 Hk0 Hid0 Hpos0) as [q Hov].
    rewrite Hov. simpl.
    apply overlay_Some in Hov as (k1 & r1 & Hk1 & Hid1 & Hq1 & Hpos1).
    split; [done |]. by exists k1, r1.
Qed.

End Carried.

Lemma load_data_rating_origin_witness :
  let t' := (@load_data example_engine example_fs "playlist.json" true
               twins).2 in
  @load_data example_engine example_fs "playlist.json" true twins
    = (Ok 2%nat, t') ∧
  ∃ r, t' !! 0 = Some r ∧
    (r_star_rating r = 0%Q ∨
     ∃ k0 r0, twins !! k0 = Some r0 ∧ r_id r0 = r_id r ∧
              r_star_rating r0 = r_star_rating r ∧ (0 < r_star_rating r)%Q).
Proof.
  intros t'.
  assert (@load_data example_engine example_fs "playlist.json" true twins
          = (Ok 2%nat, t')) as Hload by (vm_compute; reflexivity).
  split; [exact Hload |].
  assert (is_Some (t' !! 0)) as [r Hr] by (vm_compute; by eexists).
  exists r. split; [exact Hr |].
  exact (@load_data_rating_origin example_engine _ _ _ _ _ Hload 0 r Hr).
Defined.

Lemma load_data_keeps_rated_witness :
  let t' := (@load_data example_engine example_fs "playlist.json" true
               twins).2 in
  example_fs "playlist.json" = Parsed (Some two_songs) ∧
  (∀ s, s ∈ normalize_json (Some two_songs) → text_or_none (py_get s "id")) ∧
  @load_data example_engine example_fs "playlist.json" true twins
    = (Ok 2%nat, t') ∧
  (∃ k0 r0, twins !! k0 = Some r0 ∧ r_id r0 = Some "a"
            ∧ (0 < r_star_rating r0)%Q) ∧
  ∃ r, t' !! 0 = Some r ∧ r_id r = Some "a" ∧ (0 < r_star_rating r)%Q.
Proof.
  intros t'.
  assert (∀ s, s ∈ normalize_json (Some two_songs) →
               text_or_none (py_get s "id")) as Htext.
  { intros s Hs.
    assert (normalize_json (Some two_songs)
            = [build_song two_songs 0; build_song two_songs 1]) as Hn
      by reflexivity.
    rewrite Hn in Hs.
    apply elem_of_cons in Hs as [-> | Hs]; [by vm_compute |].
    apply elem_of_cons in Hs as [-> | Hs]; [by vm_compute |].
    by apply elem_of_nil in Hs. }
  assert (@load_data example_engine example_fs "playlist.json" true twins
          = (Ok 2%nat, t')) as Hload by (vm_compute; reflexivity).
  assert (∃ k0 r0, twins !! k0 = Some r0 ∧ r_id r0 = Some "a"
                   ∧ (0 < r_star_rating r0)%Q) as Hold.
  { exists 0, (set_rating 2 song_a). by vm_compute. }
  split; [reflexivity |]. split; [exact Htext |]. split; [exact Hload |].
  split; [exact Hold |].
  assert (∃ r, t' !! 0 = Some r ∧ r_id r = Some "a") as (r & Hr & Hid).
  { eexists. split; vm_compute; reflexivity. }
  exists r. split; [exact Hr |]. split; [exact Hid |].
  apply (@load_data_keeps_rated example_engine example_fs "playlist.json"
           (Some two_songs) twins t' 2 eq_refl Htext Hload 0 r "a" Hr Hid
           Hold).
Defined.

(** ** Manual reload and startup *)

Section StartupFacts.
Context `{Engine}.

(** X15. [POST /load] resets: whatever goes wrong, the reply has status 500 and
    the table is as it was; otherwise the message names the number of
    records of the file, the table holds that many rows, and every rating
    is 0. *)
Theorem load_json_data_spec config fs file_path (t : gmap Z row) :
  let path := default (DEFAULT_JSON_FILE config) file_path in
  (∀ e t', load_json_data config fs file_path t = (Raise e, t') →
     e = HTTPException 500 ∧ t' = t) ∧
  (∀ message t', load_json_data config fs file_path t = (Ok message, t') →
     ∃ json_data, fs path = Parsed json_data ∧
       message = "Loaded " +:+ pretty (length (normalize_json json_data))
                 +:+ " songs" ∧
       size t' = length (normalize_json json_data) ∧
       ∀ k r, t' !! k = Some r → r_star_rating r = 0%Q).
Proof.
  intros path. unfold load_json_data. fold path.
  destruct (load_data fs path false t) as [[n|e0] t0] eqn:Hload; split.
  - done.
  - intros message t' [= <- <-].
    destruct (load_data_Ok _ _ _ _ _ _ Hload)
      as (jd & Hfs & -> & Hsize & _).
    exists jd. split; [done |]. split; [done |]. split; [done |].
    by eapply load_data_zero_ratings.
  - intros e t' [= <- <-]. split; [done |]. by eapply load_data_Raise.
  - done.
Qed.

Lemma init_db_run (t : gmap Z row) : init_db t = (Ok (), t).
Proof. reflexivity. Qed.

(** X16. Startup never fails, and it either leaves the table as it was or
    replaces it by the result of a successful rating-preserving reload of
    the configured snapshot; it leaves it as it was when the decision is
    not to reload and when the snapshot cannot be read. *)
Theorem lifespan_spec config w fs (t : gmap Z row) :
  ∃ t', lifespan config w fs t = (Ok (), t') ∧
    (t' = t ∨
     should_reload_data config w None None = true ∧
     ∃ n, load_data fs (DEFAULT_JSON_FILE config) true t = (Ok n, t')) ∧
    (should_reload_data config w None None = false → t' = t) ∧
    ((∀ json_data, fs (DEFAULT_JSON_FILE config) ≠ Parsed json_data) →
     t' = t).
Proof.
  unfold lifespan. rewrite init_db_run.
  destruct (should_reload_data config w None None) eqn:Hdecide.
  - destruct (load_data fs (DEFAULT_JSON_FILE config) true t)
      as [[n|e] t'] eqn:Hload; exists t'.
    + split; [done |]. split; [right; split; [done | by exists n] |].
      split; [done |]. intros Hbad.
      destruct (load_data_Ok _ _ _ _ _ _ Hload) as (jd & Hfs & _).
      by destruct (Hbad jd).
    + apply load_data_Raise in Hload as ->. by repeat split; try left.
  - exists t. split; [reflexivity |]. by repeat split; try left.
Qed.

End StartupFacts.

Lemma load_json_data_spec_witness :
  (@load_json_data example_engine default_config example_fs
     (Some "broken.json") one_song
   = (Raise (HTTPException 500), one_song)) ∧
  ∃ t', @load_json_data example_engine default_config example_fs None twins
        = (Ok "Loaded 2 songs", t') ∧
        size t' = 2%nat ∧ ∀ k r, t' !! k = Some r → r_star_rating r = 0%Q.
Proof.
  pose proof (@load_json_data_spec example_engine default_config example_fs)
    as Hspec.
  split.
  - destruct (@load_json_data example_engine default_config example_fs
                (Some "broken.json") one_song) as [res t'] eqn:Hrun.
    assert (∃ e, res = Raise e) as [e ->].
    { vm_compute in Hrun. injection Hrun as <- _. by eexists. }
    destruct (proj1 (Hspec (Some "broken.json") one_song) e t' Hrun)
      as [-> ->].
    reflexivity.
  - destruct (@load_json_data example_engine default_config example_fs
                None twins) as [res t'] eqn:Hrun.
    assert (res = Ok "Loaded 2 songs") as ->.
    { vm_compute in Hrun. by injection Hrun as <- _. }
    exists t'. split; [reflexivity |].
    destruct (proj2 (Hspec None twins) _ t' Hrun)
      as (jd & Hfs & _ & Hsize & Hzero).
    injection Hfs as <-. split; [exact Hsize | exact Hzero].
Defined.

Lemma lifespan_spec_witness :
  should_reload_data default_config
    (probes true true (Some twins) 1 2) None None = false ∧
  @lifespan example_engine default_config
    (probes true true (Some twins) 1 2) example_fs twins = (Ok (), twins).
Proof.
  assert (should_reload_data default_config
            (probes true true (Some twins) 1 2) None None = false) as Hno
    by by vm_compute.
  split; [exact Hno |].
  destruct (@lifespan_spec example_engine default_config
              (probes true true (Some twins) 1 2) example_fs twins)
    as (t' & Hrun & _ & Hsame & _).
  rewrite Hrun. by rewrite (Hsame Hno).
Defined.
